(** * StayHunt listing screen: the fetch / paginate / filter logic

    A shallow embedding of [frontend/app/listings.tsx].  The component's
    React state is a record; every event handler and every settled
    [fetch] promise is a function from state to state.  Handlers run
    against the committed state of the latest render, and the updates of
    one handler (or of one promise continuation) are committed together
    before the next event is handled.

    JavaScript numbers that hold ratings are modelled as rationals: every
    finite double is a rational, and [Math.floor], [Math.ceil] and [% 1]
    are exact on doubles.  Page numbers and counts are integers. *)

From Stdlib Require Import List String Ascii Bool ZArith QArith Qround Lia.
From Stdlib Require Import DecimalString Lqa Sorted Permutation.
Import ListNotations.

Local Open Scope Z_scope.

(** ** JavaScript primitives used by the screen *)

Module JS.

(** [Math.trunc]: the integer part, rounding towards zero. *)
Definition trunc (x : Q) : Z :=
  if Qle_bool 0 x then Qfloor x else Qceiling x.

(** [x % 1]: the remainder has the sign of the dividend. *)
Definition rem1 (x : Q) : Q := (x - inject_Z (trunc x))%Q.

(** [x !== 0] on numbers; also the truthiness of a number that is not
    [null]. *)
Definition num_nonzero (x : Q) : bool := negb (Qeq_bool x 0).

(** Truthiness of a string: only the empty string is falsy. *)
Definition truthy_string (s : string) : bool :=
  match s with
  | EmptyString => false
  | String _ _ => true
  end.

(** A [for (let i = 0; i < n; i++) out.push(x)] loop: no iteration when
    [n] is not positive. *)
Definition push_times {A} (n : Z) (x : A) : list A := repeat x (Z.to_nat n).

(** [s.replace(/[^...]/g, '')] for a negated character class: every
    character outside the class is removed, the others are kept.  The
    classes of this screen hold ASCII characters only, so the result is
    the same whether the string is read as code units or as the bytes of
    its UTF-8 form. *)
Fixpoint replace_outside (cls : ascii -> bool) (s : string) : string :=
  match s with
  | EmptyString => EmptyString
  | String c rest =>
      if cls c then String c (replace_outside cls rest)
      else replace_outside cls rest
  end.

(** The range [0-9] of a character class. *)
Definition in_0_9 (c : ascii) : bool :=
  let n := nat_of_ascii c in (48 <=? n)%nat && (n <=? 57)%nat.

(** The class [0-9+]. *)
Definition in_0_9_plus (c : ascii) : bool :=
  in_0_9 c || Ascii.eqb c "+"%char.

End JS.

(** ** Star renderer *)

(** The three icons [renderStars] pushes: ["star"], ["star-half"] and
    ["star-outline"]. *)
Inductive Glyph : Type := Star | StarHalf | StarOutline.

Definition renderStars (rating : Q) : list Glyph :=
  let fullStars := Qfloor rating in
  let hasHalfStar := JS.num_nonzero (JS.rem1 rating) in
  let emptyStars := 5 - Qceiling rating in
  JS.push_times fullStars Star
    ++ (if hasHalfStar then [StarHalf] else [])
    ++ JS.push_times emptyStars StarOutline.

(** ** Outbound links *)

(** [handleCall]: the URL handed to [Linking.openURL]. *)
Definition handleCall (phoneNumber : string) : string :=
  let cleanPhone := JS.replace_outside JS.in_0_9_plus phoneNumber in
  ("tel:" ++ cleanPhone)%string.

(** [handleWhatsApp]: the URL handed to [Linking.openURL]. *)
Definition handleWhatsApp (phoneNumber : string) : string :=
  let cleanPhone := JS.replace_outside JS.in_0_9 phoneNumber in
  ("whatsapp://send?phone=" ++ cleanPhone)%string.

(** ** Data model *)

Module Property.
Record t : Type := mk {
  _id : string;
  homestay_name : string;
  location : string;
  sub_location : string;
  google_address : string;
  google_phone : string;
  google_rating : Q;
  number_of_reviews : Z;
  google_maps_link : string;
  photo_url : string;
  category : string;
  amenities : string;
  tariff : string;
  source_url : option string;
  youtube_video : option string
}.
End Property.

Module APIResponse.
Record t : Type := mk {
  properties : list Property.t;
  total : Z;
  page : Z;
  per_page : Z;
  total_pages : Z
}.
End APIResponse.

Module FilterState.
Record t : Type := mk {
  search : string;
  location : string;
  sub_location : string;
  category : string;
  min_rating : option Q;
  sort_by : string
}.

(** The value passed to [useState] and rebuilt by [clearFilters]. *)
Definition default : t :=
  {| search := ""; location := ""; sub_location := ""; category := "";
     min_rating := None; sort_by := "reviews_desc" |}.
End FilterState.

(** One call [handleFilterChange(key, value)], with a value of the type
    the key has in [FilterState]. *)
Inductive FilterUpdate : Type :=
| SetSearch (value : string)
| SetLocation (value : string)
| SetSubLocation (value : string)
| SetCategory (value : string)
| SetMinRating (value : option Q)
| SetSortBy (value : string).

(** [{ ...prev, [key]: value }] *)
Definition spread_update (prev : FilterState.t) (u : FilterUpdate) : FilterState.t :=
  let '(FilterState.mk se lo su ca mi so) := prev in
  match u with
  | SetSearch v => FilterState.mk v lo su ca mi so
  | SetLocation v => FilterState.mk se v su ca mi so
  | SetSubLocation v => FilterState.mk se lo v ca mi so
  | SetCategory v => FilterState.mk se lo su v mi so
  | SetMinRating v => FilterState.mk se lo su ca v so
  | SetSortBy v => FilterState.mk se lo su ca mi v
  end.

(** A pending call of [fetchProperties]: the arguments its continuation
    closes over while it awaits the response. *)
Record Request : Type := mkRequest {
  pageNum : Z;
  newFilters : FilterState.t;
  isRefresh : bool
}.

(** How the awaited [fetch] ends: a parsed 2xx body, or anything that
    lands in the [catch] block (rejected fetch, non-2xx status, body that
    does not parse). *)
Inductive Outcome : Type :=
| Ok (data : APIResponse.t)
| Failed.

(** The [useState] cells of [ListingScreen] that the fetch logic touches,
    followed by the screen's surroundings: the fetches awaiting their
    response (oldest first), every fetch issued so far, and the alerts
    shown so far. *)
Record State : Type := mkState {
  properties : list Property.t;
  loading : bool;
  refreshing : bool;
  page : Z;
  hasMore : bool;
  total : Z;
  filters : FilterState.t;
  inflight : list Request;
  sent : list Request;
  alerts : list (string * string)
}.

Definition setProperties (v : list Property.t) (s : State) : State :=
  mkState v (loading s) (refreshing s) (page s) (hasMore s) (total s)
          (filters s) (inflight s) (sent s) (alerts s).
Definition setLoading (v : bool) (s : State) : State :=
  mkState (properties s) v (refreshing s) (page s) (hasMore s) (total s)
          (filters s) (inflight s) (sent s) (alerts s).
Definition setRefreshing (v : bool) (s : State) : State :=
  mkState (properties s) (loading s) v (page s) (hasMore s) (total s)
          (filters s) (inflight s) (sent s) (alerts s).
Definition setPage (v : Z) (s : State) : State :=
  mkState (properties s) (loading s) (refreshing s) v (hasMore s) (total s)
          (filters s) (inflight s) (sent s) (alerts s).
Definition setHasMore (v : bool) (s : State) : State :=
  mkState (properties s) (loading s) (refreshing s) (page s) v (total s)
          (filters s) (inflight s) (sent s) (alerts s).
Definition setTotal (v : Z) (s : State) : State :=
  mkState (properties s) (loading s) (refreshing s) (page s) (hasMore s) v
          (filters s) (inflight s) (sent s) (alerts s).
Definition setFilters (v : FilterState.t) (s : State) : State :=
  mkState (properties s) (loading s) (refreshing s) (page s) (hasMore s)
          (total s) v (inflight s) (sent s) (alerts s).
Definition setInflight (v : list Request) (s : State) : State :=
  mkState (properties s) (loading s) (refreshing s) (page s) (hasMore s)
          (total s) (filters s) v (sent s) (alerts s).

(** [fetch(url)]: the request goes out and its promise is pending. *)
Definition fetch (r : Request) (s : State) : State :=
  mkState (properties s) (loading s) (refreshing s) (page s) (hasMore s)
          (total s) (filters s) (inflight s ++ [r]) (sent s ++ [r]) (alerts s).

(** [Alert.alert(title, message)] *)
Definition Alert_alert (title message : string) (s : State) : State :=
  mkState (properties s) (loading s) (refreshing s) (page s) (hasMore s)
          (total s) (filters s) (inflight s) (sent s)
          (alerts s ++ [(title, message)]).

(** State of the first render. *)
Definition initial : State :=
  {| properties := []; loading := false; refreshing := false; page := 1;
     hasMore := true; total := 0; filters := FilterState.default;
     inflight := []; sent := []; alerts := [] |}.

(** ** Query string *)

Section QueryString.

(** [Number.prototype.toString] on a rating threshold. *)
Variable Number_toString : Q -> string.

(** [pageNum.toString()]: page numbers are integers. *)
Definition page_toString (n : Z) : string :=
  NilZero.string_of_int (Z.to_int n).

(** [...(cond && { key: value })]: a falsy [cond] spreads to nothing. *)
Definition spread_if {A} (cond : bool) (entry : A) : list A :=
  if cond then [entry] else [].

(** The entries of [new URLSearchParams({...})], in insertion order. *)
Definition URLSearchParams (pageNum : Z) (newFilters : FilterState.t)
  : list (string * string) :=
  [ ("page", page_toString pageNum);
    ("per_page", "20");
    ("sort_by", FilterState.sort_by newFilters) ]%string
  ++ spread_if (JS.truthy_string (FilterState.search newFilters))
       ("search"%string, FilterState.search newFilters)
  ++ spread_if (JS.truthy_string (FilterState.location newFilters))
       ("location"%string, FilterState.location newFilters)
  ++ spread_if (JS.truthy_string (FilterState.sub_location newFilters))
       ("sub_location"%string, FilterState.sub_location newFilters)
  ++ spread_if (JS.truthy_string (FilterState.category newFilters))
       ("category"%string, FilterState.category newFilters)
  ++ match FilterState.min_rating newFilters with
     | Some q => spread_if (JS.num_nonzero q)
                   ("min_rating"%string, Number_toString q)
     | None => []
     end.

(** The parameters that [fetchProperties] puts on the wire for a call. *)
Definition request_params (r : Request) : list (string * string) :=
  URLSearchParams (pageNum r) (newFilters r).

End QueryString.

(** [URLSearchParams.prototype.get] *)
Fixpoint params_get (key : string) (ps : list (string * string)) : option string :=
  match ps with
  | [] => None
  | (k, v) :: rest => if String.eqb k key then Some v else params_get key rest
  end.

(** ** The fetch state machine *)

(** [fetchProperties] up to its [await]: the loading flag of a first-page
    call, then the request. *)
Definition fetchProperties (pageNum : Z) (newFilters : FilterState.t)
                           (isRefresh : bool) (s : State) : State :=
  let s1 :=
    if pageNum =? 1
    then (if isRefresh then setRefreshing true s else setLoading true s)
    else s in
  fetch (mkRequest pageNum newFilters isRefresh) s1.

(** [fetchProperties] after its [await], for the call [r]: the [try] body
    on a good response, the [catch] block otherwise, and the [finally]
    block in both cases. *)
Definition fetchProperties_settled (r : Request) (o : Outcome) (s : State) : State :=
  let s1 :=
    match o with
    | Ok data =>
        let s2 :=
          if pageNum r =? 1
          then setProperties (APIResponse.properties data) s
          else setProperties (properties s ++ APIResponse.properties data) s in
        setHasMore (pageNum r <? APIResponse.total_pages data)
          (setTotal (APIResponse.total data) s2)
    | Failed =>
        Alert_alert "Error" "Failed to load properties. Please try again." s
    end in
  setRefreshing false (setLoading false s1).

(** Removal of the [i]-th pending fetch. *)
Fixpoint remove_nth {A} (i : nat) (l : list A) : list A :=
  match l, i with
  | [], _ => []
  | _ :: rest, O => rest
  | x :: rest, S j => x :: remove_nth j rest
  end.

(** The [i]-th pending fetch settles with outcome [o]; nothing happens
    when there is no such fetch. *)
Definition settle (i : nat) (o : Outcome) (s : State) : State :=
  match nth_error (inflight s) i with
  | Some r => fetchProperties_settled r o (setInflight (remove_nth i (inflight s)) s)
  | None => s
  end.

(** The most recently issued pending fetch settles. *)
Definition settle_latest (o : Outcome) (s : State) : State :=
  settle (Nat.pred (List.length (inflight s))) o s.

(** The effect with dependency list [[filters]]. *)
Definition filters_effect (s : State) : State :=
  let s1 := setPage 1 s in
  fetchProperties 1 (filters s1) false s1.

(** The two effects of the first render: the mount effect fetches page 1,
    and the [[filters]] effect runs on mount as well. *)
Definition mount (s : State) : State :=
  filters_effect (fetchProperties 1 (filters s) false s).

Definition mounted : State := mount initial.

(** [handleFilterChange]: the functional update of [filters]. *)
Definition handleFilterChange (u : FilterUpdate) (s : State) : State :=
  setFilters (spread_update (filters s) u) s.

(** [clearFilters] *)
Definition clearFilters (s : State) : State :=
  setFilters FilterState.default s.

(** [onPress] of the sub-location leaf [name] under [loc]: the condition
    reads the [filters] of the current render, the two updates compose. *)
Definition press_subLocation (loc name : string) (s : State) : State :=
  let selected :=
    String.eqb (FilterState.location (filters s)) loc
    && String.eqb (FilterState.sub_location (filters s)) name in
  handleFilterChange (SetSubLocation (if selected then ""%string else name))
    (handleFilterChange (SetLocation loc) s).

(** [handleLoadMore] *)
Definition handleLoadMore (s : State) : State :=
  if negb (loading s) && hasMore s then
    let nextPage := page s + 1 in
    fetchProperties nextPage (filters s) false (setPage nextPage s)
  else s.

(** [handleRefresh] *)
Definition handleRefresh (s : State) : State :=
  fetchProperties 1 (filters s) true (setPage 1 s).

(** What can happen to the mounted screen.  A handler that replaces
    [filters] is followed by the [[filters]] effect of the re-render. *)
Inductive Event : Type :=
| FilterChange (u : FilterUpdate)
| SubLocationPress (loc name : string)
| ClearFilters
| LoadMore
| Refresh
| Settle (i : nat) (o : Outcome).

Definition step (s : State) (e : Event) : State :=
  match e with
  | FilterChange u => filters_effect (handleFilterChange u s)
  | SubLocationPress loc name => filters_effect (press_subLocation loc name s)
  | ClearFilters => filters_effect (clearFilters s)
  | LoadMore => handleLoadMore s
  | Refresh => handleRefresh s
  | Settle i o => settle i o s
  end.

Definition run (es : list Event) (s : State) : State := fold_left step es s.

(** The events that start a first-page fetch: [setFilter] and [refresh]
    in the words of the design. *)
Definition first_page_trigger (e : Event) : bool :=
  match e with
  | FilterChange _ | SubLocationPress _ _ | ClearFilters | Refresh => true
  | LoadMore | Settle _ _ => false
  end.

(** [loadMore()] after [loadMore()], each awaited before the next: the
    pages [ds] arrive one per call. *)
Fixpoint load_pages (ds : list APIResponse.t) (s : State) : State :=
  match ds with
  | [] => s
  | d :: rest => load_pages rest (settle_latest (Ok d) (handleLoadMore s))
  end.

(** Page [k] and its successors in [ds] each announce a further page,
    the last one excepted: what lets [load_pages] fetch them all. *)
Fixpoint pages_follow (k : Z) (ds : list APIResponse.t) : bool :=
  match ds with
  | [] => true
  | d :: rest =>
      match rest with
      | [] => true
      | _ :: _ => (k <? APIResponse.total_pages d) && pages_follow (k + 1) rest
      end
  end.

(** The requests of pages [k], [k+1], ... under the filters [f]. *)
Fixpoint page_requests (k : Z) (n : nat) (f : FilterState.t) : list Request :=
  match n with
  | O => []
  | S m => mkRequest k f false :: page_requests (k + 1) m f
  end.

(** ** Reference predicates of the design document *)

(** A decimal digit, by enumeration. *)
Definition spec_digit (c : ascii) : bool :=
  existsb (Ascii.eqb c)
    ["0"; "1"; "2"; "3"; "4"; "5"; "6"; "7"; "8"; "9"]%char.

(** A decimal digit or the plus sign. *)
Definition spec_digit_or_plus (c : ascii) : bool :=
  spec_digit c || Ascii.eqb c "+"%char.

(** The design's rule for superseded requests, in its weakest form: a
    good response to a request issued under filters that are no longer
    the current ones leaves the displayed list alone. *)
Definition stale_responses_discarded : Prop :=
  forall (es : list Event) (i : nat) (r : Request) (d : APIResponse.t),
    let s := run es mounted in
    nth_error (inflight s) i = Some r ->
    newFilters r <> filters s ->
    properties (settle i (Ok d) s) = properties s.

(** The design's rule for a failed first-page request: the list is
    emptied. *)
Definition failed_first_page_clears : Prop :=
  forall (es : list Event) (i : nat) (r : Request),
    let s := run es mounted in
    nth_error (inflight s) i = Some r ->
    pageNum r = 1 ->
    properties (settle i Failed s) = [].

(** The design's rule for a filter change or a refresh: once the request
    it starts has settled, the list shows items of the new first page
    only, and nothing when there is no such page. *)
Definition list_replaced_on_trigger : Prop :=
  forall (es : list Event) (e : Event) (o : Outcome) (x : Property.t),
    let s := run es mounted in
    first_page_trigger e = true ->
    In x (properties (settle_latest o (step s e))) ->
    match o with
    | Ok data => In x (APIResponse.properties data)
    | Failed => False
    end.

(** The design's halting rule: once [hasMore] is false, [loadMore()]
    stays without effect whatever happens, short of a filter change or a
    refresh. *)
Definition pagination_halts : Prop :=
  forall es es' : list Event,
    let s := run es mounted in
    hasMore s = false ->
    forallb (fun e => negb (first_page_trigger e)) es' = true ->
    handleLoadMore (run es' s) = run es' s.

(** The design's rule for re-entrant triggers: a refresh while a refresh
    is pending, and a load-more while a next-page fetch is pending, send
    nothing. *)
Definition reentrant_triggers_ignored : Prop :=
  forall es : list Event,
    let s := run es mounted in
    ((exists r, In r (inflight s) /\ isRefresh r = true) ->
     sent (handleRefresh s) = sent s)
    /\ ((exists r, In r (inflight s) /\ pageNum r <> 1) ->
        sent (handleLoadMore s) = sent s).

(** The filters a sub-location leaf does not touch. *)
Definition other_filters (f : FilterState.t) : string * string * option Q * string :=
  (FilterState.search f, FilterState.category f, FilterState.min_rating f,
   FilterState.sort_by f).

(** A sample record, for concrete runs. *)
Definition sample (id name : string) : Property.t :=
  {| Property._id := id; Property.homestay_name := name;
     Property.location := "Dooars"; Property.sub_location := "Lataguri";
     Property.google_address := ""; Property.google_phone := "+91 98300 12345";
     Property.google_rating := 7 # 2; Property.number_of_reviews := 12;
     Property.google_maps_link := ""; Property.photo_url := "";
     Property.category := "Homestay"; Property.amenities := "";
     Property.tariff := ""; Property.source_url := None;
     Property.youtube_video := None |}.

(** A response body carrying [items] as page [k] of [n]. *)
Definition body (items : list Property.t) (k n : Z) : APIResponse.t :=
  {| APIResponse.properties := items; APIResponse.total := 20 * n;
     APIResponse.page := k; APIResponse.per_page := 20;
     APIResponse.total_pages := n |}.

(** ** The rest of the listing screen *)

(** [onPress] of a classification option: the selected option is
    cleared, any other is selected. *)
Definition press_category (category : string) (s : State) : State :=
  handleFilterChange
    (SetCategory
       (if String.eqb (FilterState.category (filters s)) category
        then ""%string else category))
    s.

(** Everything the screen's controls and the network can do: the search
    box ([onChangeText]), a sub-location leaf, a classification option,
    "Clear Filter", [onEndReached], [onRefresh] and the Retry button, and
    a settled fetch. *)
Inductive Action : Type :=
| TypeSearch (text : string)
| PressLeaf (loc name : string)
| PressCategory (category : string)
| PressClear
| EndReached
| PullRefresh
| Response (i : nat) (o : Outcome).

Definition act (s : State) (a : Action) : State :=
  match a with
  | TypeSearch text => filters_effect (handleFilterChange (SetSearch text) s)
  | PressLeaf loc name => filters_effect (press_subLocation loc name s)
  | PressCategory category => filters_effect (press_category category s)
  | PressClear => filters_effect (clearFilters s)
  | EndReached => handleLoadMore s
  | PullRefresh => handleRefresh s
  | Response i o => settle i o s
  end.

Definition session (acts : list Action) (s : State) : State :=
  fold_left act acts s.

(** The full-page spinner is rendered under [loading && page === 1]. *)
Definition show_spinner (s : State) : bool := loading s && (page s =? 1).

(** [renderEmpty]: the text under the icon. *)
Definition emptyText (f : FilterState.t) : string :=
  if JS.truthy_string (FilterState.search f)
     || JS.truthy_string (FilterState.location f)
  then "No properties found matching your criteria"%string
  else "No properties available"%string.

(** *** Property card *)

(** The rating row of a card: the stars, the rating as printed, and the
    review count when there is one. *)
Record RatingRow : Type := mkRatingRow {
  row_stars : list Glyph;
  row_rating : string;
  row_reviews : option Z
}.

Section Card.

(** [Number.prototype.toFixed(1)] on a rating. *)
Variable toFixed1 : Q -> string.

(** [item.google_rating > 0 && (...)] *)
Definition ratingRow (item : Property.t) : option RatingRow :=
  if negb (Qle_bool (Property.google_rating item) 0) then
    Some (mkRatingRow
            (renderStars (Property.google_rating item))
            (toFixed1 (Property.google_rating item))
            (if 0 <? Property.number_of_reviews item
             then Some (Property.number_of_reviews item) else None))
  else None.

End Card.

(** [item.tariff || 'Price on request'] *)
Definition priceText (item : Property.t) : string :=
  if JS.truthy_string (Property.tariff item) then Property.tariff item
  else "Price on request"%string.

(** *** Expanded sections *)

(** [expandedSections]: an object from keys to booleans, as the list of
    its own entries.  The screen only reads single keys, never the
    order, and the keys it uses are the three section names and the
    [location_]-prefixed node keys; members inherited from
    [Object.prototype] (a key such as ["constructor"]) are not part of
    the model. *)
Definition Sections : Type := list (string * bool).

(** [obj[key]]; [None] is [undefined]. *)
Fixpoint obj_get (key : string) (o : Sections) : option bool :=
  match o with
  | [] => None
  | (k, v) :: rest => if String.eqb k key then Some v else obj_get key rest
  end.

(** [{ ...prev, [key]: value }] *)
Fixpoint obj_set (key : string) (value : bool) (prev : Sections) : Sections :=
  match prev with
  | [] => [(key, value)]
  | (k, v) :: rest =>
      if String.eqb k key then (k, value) :: rest
      else (k, v) :: obj_set key value rest
  end.

(** Truthiness of [obj[key]]: [undefined] is falsy. *)
Definition expanded (key : string) (o : Sections) : bool :=
  match obj_get key o with
  | Some b => b
  | None => false
  end.

(** The keys [toggleSection] is called with. *)
Definition section_key (key : string) : Prop :=
  In key ["location"; "price"; "classification"]%string.

(** The keys the screen reads or writes: the sections and the location
    nodes. *)
Definition screen_key (key : string) : Prop :=
  section_key key \/ exists loc : string, key = ("location_" ++ loc)%string.

(** The value passed to [useState]. *)
Definition initialSections : Sections :=
  [("location", true); ("price", false); ("classification", false)]%string.

(** [toggleSection] *)
Definition toggleSection (section : string) (prev : Sections) : Sections :=
  obj_set section (negb (expanded section prev)) prev.

(** [onPress] of the main node of a location. *)
Definition toggleLocationNode (loc : string) (prev : Sections) : Sections :=
  let key := ("location_" ++ loc)%string in
  obj_set key (negb (expanded key prev)) prev.

(** *** Location tree of the filter panel *)

Module LocationStat.
Record t : Type := mk {
  location : string;
  count : Z;
  sub_locations : list (list (string * Z))
}.
End LocationStat.

(** One rendered sub-location leaf. *)
Record Leaf : Type := mkLeaf {
  leaf_name : string;
  leaf_count : Z;
  leaf_selected : bool
}.

(** One rendered location: its main node and, when expanded, its leaves
    and whether the "Show More" node follows them. *)
Record Node : Type := mkNode {
  node_location : string;
  node_count : Z;
  node_expanded : bool;
  node_leaves : list Leaf;
  node_showMore : bool
}.

(** [const [name, count] = Object.entries(subLocObj)[0]] and the leaf
    built from it; [None] when the object has no entry and the
    destructuring throws. *)
Definition render_leaf (f : FilterState.t) (loc : string)
                       (subLocObj : list (string * Z)) : option Leaf :=
  match subLocObj with
  | [] => None
  | (name, count) :: _ =>
      Some (mkLeaf name count
              (String.eqb (FilterState.location f) loc
               && String.eqb (FilterState.sub_location f) name))
  end.

(** [array.map(f)] for an [f] that may throw. *)
Fixpoint map_throwing {A B} (f : A -> option B) (l : list A) : option (list B) :=
  match l with
  | [] => Some []
  | x :: rest =>
      match f x with
      | None => None
      | Some y =>
          match map_throwing f rest with
          | None => None
          | Some ys => Some (y :: ys)
          end
      end
  end.

Definition render_node (sections : Sections) (f : FilterState.t)
                       (loc : LocationStat.t) : option Node :=
  if expanded ("location_" ++ LocationStat.location loc)%string sections then
    match map_throwing (render_leaf f (LocationStat.location loc))
                       (LocationStat.sub_locations loc) with
    | None => None
    | Some leaves =>
        Some (mkNode (LocationStat.location loc) (LocationStat.count loc) true
                leaves
                (6 <? List.length (LocationStat.sub_locations loc))%nat)
    end
  else
    Some (mkNode (LocationStat.location loc) (LocationStat.count loc) false
            [] false).

(** The location part of [renderFilterSection]; [None] when rendering
    throws. *)
Definition render_tree (sections : Sections) (f : FilterState.t)
                       (locations : list LocationStat.t) : option (list Node) :=
  if expanded "location" sections
  then map_throwing (render_node sections f) locations
  else Some [].

(** *** Invariants *)

(** The cursor is positive, and on page 1 while [loading] is true. *)
Definition loading_on_first_page (s : State) : Prop :=
  1 <= page s /\ (loading s = true -> page s = 1).

(** With nothing pending, neither loading flag is set. *)
Definition idle_when_nothing_pending (s : State) : Prop :=
  inflight s = [] -> loading s = false /\ refreshing s = false.

(** The cursor is the page of the request sent last. *)
Definition cursor_is_newest_request (s : State) : Prop :=
  exists (older : list Request) (r : Request),
    sent s = older ++ [r] /\ pageNum r = page s.

(** The sort key and the rating threshold of the first render. *)
Definition fixed_sort (f : FilterState.t) : Prop :=
  FilterState.sort_by f = "reviews_desc"%string
  /\ FilterState.min_rating f = None.

(** They are in force, and every request sent carries them. *)
Definition sort_never_changed (s : State) : Prop :=
  fixed_sort (filters s) /\ Forall (fun r => fixed_sort (newFilters r)) (sent s).

(** ** Search screen: fetch and pagination (another source file) *)

Module SearchScreen.

(** A pending call of this screen's [fetchProperties]. *)
Record Request : Type := mkRequest {
  pageNum : Z;
  query : string;
  isRefresh : bool
}.

Record State : Type := mkState {
  properties : list Property.t;
  loading : bool;
  refreshing : bool;
  searchQuery : string;
  page : Z;
  hasMore : bool;
  total : Z;
  inflight : list Request;
  sent : list Request;
  alerts : list (string * string)
}.

Definition initial : State :=
  {| properties := []; loading := false; refreshing := false;
     searchQuery := ""; page := 1; hasMore := true; total := 0;
     inflight := []; sent := []; alerts := [] |}.

(** The entries of [new URLSearchParams({...})]. *)
Definition URLSearchParams (pageNum : Z) (query : string) : list (string * string) :=
  [ ("page", page_toString pageNum);
    ("per_page", "10");
    ("sort_by", "rating_desc") ]%string
  ++ spread_if (JS.truthy_string query) ("search"%string, query).

(** [fetchProperties] up to its [await]. *)
Definition fetchProperties (pageNum : Z) (query : string) (isRefresh : bool)
                           (s : State) : State :=
  let r := mkRequest pageNum query isRefresh in
  mkState (properties s)
          (if (pageNum =? 1) && negb isRefresh then true else loading s)
          (if (pageNum =? 1) && isRefresh then true else refreshing s)
          (searchQuery s) (page s) (hasMore s) (total s)
          (inflight s ++ [r]) (sent s ++ [r]) (alerts s).

(** [fetchProperties] after its [await], for the call [r]; the pending
    list [pending] is what remains once [r] is taken out. *)
Definition fetchProperties_settled (r : Request) (o : Outcome)
                                   (pending : list Request) (s : State) : State :=
  match o with
  | Ok data =>
      mkState (if pageNum r =? 1 then APIResponse.properties data
               else properties s ++ APIResponse.properties data)
              false false (searchQuery s) (page s)
              (pageNum r <? APIResponse.total_pages data)
              (APIResponse.total data) pending (sent s) (alerts s)
  | Failed =>
      mkState (properties s) false false (searchQuery s) (page s) (hasMore s)
              (total s) pending (sent s)
              (alerts s ++ [("Error", "Failed to load properties. Please try again.")]%string)
  end.

Definition settle (i : nat) (o : Outcome) (s : State) : State :=
  match nth_error (inflight s) i with
  | Some r => fetchProperties_settled r o (remove_nth i (inflight s)) s
  | None => s
  end.

(** The only effect, on [[searchQuery]]: it runs on mount. *)
Definition mounted : State := fetchProperties 1 (searchQuery initial) false initial.

(** [handleSearch], followed by the effect when the text is a new one. *)
Definition handleSearch (text : string) (s : State) : State :=
  let s1 := mkState (properties s) (loading s) (refreshing s) text 1
                    (hasMore s) (total s) (inflight s) (sent s) (alerts s) in
  if String.eqb text (searchQuery s) then s1
  else fetchProperties 1 text false s1.

Definition handleLoadMore (s : State) : State :=
  if negb (loading s) && hasMore s then
    let nextPage := page s + 1 in
    fetchProperties nextPage (searchQuery s) false
      (mkState (properties s) (loading s) (refreshing s) (searchQuery s) nextPage
               (hasMore s) (total s) (inflight s) (sent s) (alerts s))
  else s.

Definition handleRefresh (s : State) : State :=
  fetchProperties 1 (searchQuery s) true
    (mkState (properties s) (loading s) (refreshing s) (searchQuery s) 1
             (hasMore s) (total s) (inflight s) (sent s) (alerts s)).

(** [renderFooter] returns the "Loading more properties..." row unless
    [!loading || page === 1]. *)
Definition renderFooter (s : State) : bool :=
  negb (negb (loading s) || (page s =? 1)).

Inductive Event : Type :=
| Search (text : string)
| LoadMore
| Refresh
| Settle (i : nat) (o : Outcome).

Definition step (s : State) (e : Event) : State :=
  match e with
  | Search text => handleSearch text s
  | LoadMore => handleLoadMore s
  | Refresh => handleRefresh s
  | Settle i o => settle i o s
  end.

Definition run (es : list Event) (s : State) : State := fold_left step es s.

(** The cursor is positive, and on page 1 while [loading] is true. *)
Definition loading_on_first_page (s : State) : Prop :=
  1 <= page s /\ (loading s = true -> page s = 1).

End SearchScreen.

(** ** Location detail screen (second component of the listing file) *)

Module LocationDetail.

Record SubLocation : Type := mkSubLocation {
  name : string;
  count : Z;
  expanded : bool
}.

(** The two nested [for ... of] loops of [fetchLocationData]: every
    entry of every sub-location object, in order, collapsed. *)
Definition collect (sub_locations : list (list (string * Z))) : list SubLocation :=
  flat_map (map (fun entry => mkSubLocation (fst entry) (snd entry) false))
           sub_locations.

(** Insertion for [(a, b) => b.count - a.count]: [x] goes in front of
    the first element that does not have to precede it. *)
Fixpoint insert_desc (x : SubLocation) (l : list SubLocation) : list SubLocation :=
  match l with
  | [] => [x]
  | y :: rest =>
      if count y <=? count x then x :: y :: rest
      else y :: insert_desc x rest
  end.

(** [subLocs.sort((a, b) => b.count - a.count)].  [Array.prototype.sort]
    is stable, and the stable sort for a comparator is one list whatever
    the algorithm; insertion from the right computes it. *)
Definition sort_desc (l : list SubLocation) : list SubLocation :=
  fold_right insert_desc [] l.

Section Find.

Variable toLowerCase : string -> string.

(** The predicate of [locations.find]; an [undefined] route parameter
    compares unequal to every name. *)
Definition is_current (locationName : option string) (loc : LocationStat.t) : bool :=
  match locationName with
  | Some n => String.eqb (toLowerCase (LocationStat.location loc)) (toLowerCase n)
  | None => false
  end.

(** The argument of [setSubLocations], or [None] when no location is
    found and the state is left alone. *)
Definition fetchLocationData_subLocations
    (locationName : option string) (locations : list LocationStat.t)
  : option (list SubLocation) :=
  match find (is_current locationName) locations with
  | Some currentLocation =>
      Some (sort_desc (collect (LocationStat.sub_locations currentLocation)))
  | None => None
  end.

End Find.

(** [prev.map((item, i) => i === index ? {...item, expanded: !item.expanded} : item)];
    indices count from [from]. *)
Fixpoint toggle_from (from index : Z) (prev : list SubLocation) : list SubLocation :=
  match prev with
  | [] => []
  | item :: rest =>
      (if from =? index
       then mkSubLocation (name item) (count item) (negb (expanded item))
       else item)
      :: toggle_from (from + 1) index rest
  end.

(** [toggleSubLocation] *)
Definition toggleSubLocation (index : Z) (prev : list SubLocation) : list SubLocation :=
  toggle_from 0 index prev.

(** The value [selectSubLocation] passes to [setSelectedSubLocation]. *)
Definition selectSubLocation (subLocationName selectedSubLocation : string) : string :=
  if String.eqb subLocationName selectedSubLocation then ""%string
  else subLocationName.

(** The entries of this screen's [new URLSearchParams({...})];
    [locationName || ''] for a parameter that may be [undefined]. *)
Definition URLSearchParams (locationName : option string) (pageNum : Z)
                           (subLocation : string) : list (string * string) :=
  [ ("page", page_toString pageNum);
    ("per_page", "10");
    ("location", match locationName with
                 | Some n => if JS.truthy_string n then n else ""
                 | None => ""
                 end);
    ("sort_by", "reviews_desc") ]%string
  ++ spread_if (JS.truthy_string subLocation) ("sub_location"%string, subLocation).

(** [a] may stand before [b]: its count is not the smaller one. *)
Definition ge_count (a b : SubLocation) : Prop := count b <= count a.

(** The sub-locations of a given count, in their order. *)
Definition with_count (c : Z) (l : list SubLocation) : list SubLocation :=
  filter (fun s => count s =? c) l.

End LocationDetail.

(** * Properties *)

(** ** Star renderer *)

Example renderStars_3_5 :
  renderStars (7 # 2) = [Star; Star; Star; StarHalf; StarOutline].
Proof. reflexivity. Qed.

Lemma Qfloor_range (r : Q) (a b : Z) :
  (inject_Z a <= r)%Q -> (r <= inject_Z b)%Q -> a <= Qfloor r <= b.
Proof.
  intros Ha Hb. split.
  - rewrite <- (Qfloor_Z a). now apply Qfloor_resp_le.
  - rewrite <- (Qfloor_Z b). now apply Qfloor_resp_le.
Qed.

(** The ceiling is the floor on an integer and the floor plus one
    elsewhere. *)
Lemma Qceiling_floor (r : Q) :
  ((r == inject_Z (Qfloor r))%Q /\ Qceiling r = Qfloor r)
  \/ (~ (r == inject_Z (Qfloor r))%Q /\ Qceiling r = Qfloor r + 1).
Proof.
  destruct (Qeq_dec r (inject_Z (Qfloor r))) as [E | N].
  - left. split; [exact E |].
    rewrite E at 1. apply Qceiling_Z.
  - right. split; [exact N |].
    assert (Hlo : (inject_Z (Qfloor r) < r)%Q).
    { destruct (Qle_lt_or_eq _ _ (Qfloor_le r)) as [H | H]; [exact H |].
      exfalso. apply N. symmetry. exact H. }
    assert (H1 : (inject_Z (Qfloor r) < inject_Z (Qceiling r))%Q)
      by (eapply Qlt_le_trans; [exact Hlo | apply Qle_ceiling]).
    assert (H2 : (inject_Z (Qceiling r - 1) < inject_Z (Qfloor r + 1))%Q)
      by (eapply Qlt_trans; [apply Qceiling_lt | apply Qlt_floor]).
    rewrite <- Zlt_Qlt in H1, H2. lia.
Qed.

Lemma rem1_nonneg (r : Q) :
  (0 <= r)%Q ->
  JS.num_nonzero (JS.rem1 r) = negb (Qeq_bool r (inject_Z (Qfloor r))).
Proof.
  intros H. unfold JS.num_nonzero, JS.rem1, JS.trunc.
  apply Qle_bool_iff in H. rewrite H. f_equal.
  destruct (Qeq_bool r (inject_Z (Qfloor r))) eqn:E.
  - apply Qeq_bool_iff in E. apply Qeq_bool_iff. lra.
  - apply not_true_is_false. intros C. apply Qeq_bool_iff in C.
    apply Qeq_bool_neq in E. apply E. lra.
Qed.

(** C4. For every rating in [0,5] the star renderer emits floor(rating)
    full glyphs, then one half glyph exactly when the rating has a
    non-zero fractional part, then the empty glyphs, five glyphs in all;
    0 gives five empty, 5 gives five full, 3.5 gives 3 full, 1 half and
    1 empty, and 4.2 (as a decimal and as the double nearest to it) gives
    4 full and 1 half. *)
Theorem renderStars_five_glyphs :
  (forall rating : Q,
      (0 <= rating)%Q /\ (rating <= 5)%Q ->
      exists half empty : nat,
        renderStars rating
        = repeat Star (Z.to_nat (Qfloor rating))
            ++ repeat StarHalf half ++ repeat StarOutline empty
        /\ (half = 1%nat <-> ~ (rating == inject_Z (Qfloor rating))%Q)
        /\ (half = 0%nat <-> (rating == inject_Z (Qfloor rating))%Q)
        /\ (Z.to_nat (Qfloor rating) + half + empty = 5)%nat
        /\ List.length (renderStars rating) = 5%nat)
  /\ renderStars 0
     = [StarOutline; StarOutline; StarOutline; StarOutline; StarOutline]
  /\ renderStars 5 = [Star; Star; Star; Star; Star]
  /\ renderStars (7 # 2) = [Star; Star; Star; StarHalf; StarOutline]
  /\ renderStars (21 # 5) = [Star; Star; Star; Star; StarHalf]
  /\ renderStars (4728779608739021 # 1125899906842624)
     = [Star; Star; Star; Star; StarHalf].
Proof.
  split; [| repeat split; reflexivity].
  intros rating [H0 H5].
  assert (Hf : 0 <= Qfloor rating <= 5) by (apply Qfloor_range; assumption).
  assert (Hc : Qceiling rating <= 5)
    by (rewrite <- (Qceiling_Z 5); now apply Qceiling_resp_le).
  unfold renderStars, JS.push_times.
  rewrite (rem1_nonneg rating H0).
  destruct (Qceiling_floor rating) as [[E C] | [N C]]; rewrite C in *.
  - exists 0%nat, (Z.to_nat (5 - Qfloor rating)).
    assert (Eb : Qeq_bool rating (inject_Z (Qfloor rating)) = true)
      by (apply Qeq_bool_iff; exact E).
    rewrite Eb. cbn [negb repeat app].
    split; [reflexivity |].
    split; [split; [discriminate | intros N; destruct (N E)] |].
    split; [tauto |].
    split; [lia |].
    rewrite length_app, !repeat_length. lia.
  - exists 1%nat, (Z.to_nat (5 - (Qfloor rating + 1))).
    assert (Eb : Qeq_bool rating (inject_Z (Qfloor rating)) = false).
    { apply not_true_is_false. intros T. apply N. apply Qeq_bool_iff. exact T. }
    rewrite Eb. cbn [negb repeat app].
    split; [reflexivity |].
    split; [tauto |].
    split; [split; [discriminate | intros E; destruct (N E)] |].
    split; [lia |].
    rewrite length_app. cbn [List.length app]. rewrite !repeat_length. lia.
Qed.

Lemma renderStars_five_glyphs_witness :
  ((0 <= 7 # 2)%Q /\ (7 # 2 <= 5)%Q)
  /\ exists half empty : nat,
       renderStars (7 # 2)
       = repeat Star (Z.to_nat (Qfloor (7 # 2)))
           ++ repeat StarHalf half ++ repeat StarOutline empty
       /\ (half = 1%nat <-> ~ (7 # 2 == inject_Z (Qfloor (7 # 2)))%Q)
       /\ (half = 0%nat <-> (7 # 2 == inject_Z (Qfloor (7 # 2)))%Q)
       /\ (Z.to_nat (Qfloor (7 # 2)) + half + empty = 5)%nat
       /\ List.length (renderStars (7 # 2)) = 5%nat.
Proof.
  assert (H : (0 <= 7 # 2)%Q /\ (7 # 2 <= 5)%Q)
    by (split; unfold Qle; simpl; lia).
  split; [exact H |].
  exact (proj1 renderStars_five_glyphs (7 # 2) H).
Defined.

(** ** Outbound links *)

Example handleCall_ex :
  handleCall "+91 (98300) 12-345" = "tel:+919830012345"%string.
Proof. reflexivity. Qed.

Example handleWhatsApp_ex :
  handleWhatsApp "+91 (98300) 12-345" = "whatsapp://send?phone=919830012345"%string.
Proof. reflexivity. Qed.

(** The range [0-9] holds the ten digits and nothing else. *)
Lemma in_0_9_digit (c : ascii) : JS.in_0_9 c = spec_digit c.
Proof.
  destruct c as [[] [] [] [] [] [] [] []]; reflexivity.
Qed.

Lemma in_0_9_plus_digit_or_plus (c : ascii) :
  JS.in_0_9_plus c = spec_digit_or_plus c.
Proof.
  unfold JS.in_0_9_plus, spec_digit_or_plus. now rewrite in_0_9_digit.
Qed.

(** Removing the characters outside a class filters the characters. *)
Lemma replace_outside_filter (cls : ascii -> bool) (s : string) :
  list_ascii_of_string (JS.replace_outside cls s)
  = filter cls (list_ascii_of_string s).
Proof.
  induction s as [| c rest IH]; simpl; [reflexivity |].
  destruct (cls c); simpl; now rewrite IH.
Qed.

(** C9. The dial action opens [tel:] followed by the input without the
    characters that are neither a digit nor a plus sign, the kept ones in
    their order; the messaging action uses the digits of the input only. *)
Theorem phone_links_cleaned (phoneNumber : string) :
  exists dial chat : string,
    handleCall phoneNumber = ("tel:" ++ dial)%string
    /\ handleWhatsApp phoneNumber = ("whatsapp://send?phone=" ++ chat)%string
    /\ list_ascii_of_string dial
       = filter spec_digit_or_plus (list_ascii_of_string phoneNumber)
    /\ list_ascii_of_string chat
       = filter spec_digit (list_ascii_of_string phoneNumber).
Proof.
  exists (JS.replace_outside JS.in_0_9_plus phoneNumber),
         (JS.replace_outside JS.in_0_9 phoneNumber).
  repeat split.
  - rewrite replace_outside_filter. apply filter_ext.
    exact in_0_9_plus_digit_or_plus.
  - rewrite replace_outside_filter. apply filter_ext. exact in_0_9_digit.
Qed.

(** ** Load more *)

(** C3. With [hasMore] false, [loadMore()] changes nothing: the state,
    and with it the list of issued requests, is the one before. *)
Theorem loadMore_without_more (s : State) :
  hasMore s = false ->
  handleLoadMore s = s
  /\ sent (handleLoadMore s) = sent s
  /\ inflight (handleLoadMore s) = inflight s.
Proof.
  intros H. unfold handleLoadMore. rewrite H, andb_false_r. auto.
Qed.

Lemma loadMore_without_more_witness :
  let s := run [Settle 0 (Ok (body [sample "1" "A"] 1 1));
                Settle 0 (Ok (body [sample "1" "A"] 1 1))] mounted in
  hasMore s = false /\ handleLoadMore s = s.
Proof.
  intros s. split; [reflexivity |].
  exact (proj1 (loadMore_without_more s eq_refl)).
Defined.

(** ** Sub-location leaves *)

Lemma filters_effect_filters (s : State) : filters (filters_effect s) = filters s.
Proof. unfold filters_effect, fetchProperties. reflexivity. Qed.

(** C8. Pressing a leaf that is not the selected one sets [location] and
    [sub_location] to the leaf's; pressing the selected leaf empties
    [sub_location] and keeps [location]; pressing another leaf of the
    selected location moves [sub_location] to it at once.  The other
    filters stay as they are. *)
Theorem subLocation_toggle :
  (forall (s : State) (loc name : string),
      ~ (FilterState.location (filters s) = loc
         /\ FilterState.sub_location (filters s) = name) ->
      let f := filters (step s (SubLocationPress loc name)) in
      FilterState.location f = loc /\ FilterState.sub_location f = name
      /\ other_filters f = other_filters (filters s))
  /\ (forall (s : State) (loc name : string),
         FilterState.location (filters s) = loc ->
         FilterState.sub_location (filters s) = name ->
         let f := filters (step s (SubLocationPress loc name)) in
         FilterState.location f = loc /\ FilterState.sub_location f = ""%string
         /\ other_filters f = other_filters (filters s))
  /\ (forall (s : State) (loc name other : string),
         FilterState.location (filters s) = loc ->
         FilterState.sub_location (filters s) = name ->
         other <> name ->
         let f := filters (step s (SubLocationPress loc other)) in
         FilterState.location f = loc /\ FilterState.sub_location f = other)
  /\ (let f := filters (run [SubLocationPress "Dooars" "Lataguri";
                             SubLocationPress "Dooars" "Chalsa"] mounted) in
      FilterState.location f = "Dooars"%string
      /\ FilterState.sub_location f = "Chalsa"%string).
Proof.
  split; [| split; [| split]].
  - intros s loc name H f. subst f. cbn [step]. rewrite filters_effect_filters.
    unfold press_subLocation, handleFilterChange. cbn [filters setFilters].
    destruct (String.eqb_spec (FilterState.location (filters s)) loc) as [E1 | N1];
      [destruct (String.eqb_spec (FilterState.sub_location (filters s)) name)
         as [E2 | N2] |]; cbn [andb].
    + exfalso. apply H. split; assumption.
    + destruct (filters s). repeat split.
    + destruct (filters s). repeat split.
  - intros s loc name E1 E2 f. subst f. cbn [step]. rewrite filters_effect_filters.
    unfold press_subLocation, handleFilterChange. cbn [filters setFilters].
    rewrite <- E1, <- E2, !String.eqb_refl. cbn [andb].
    destruct (filters s). repeat split.
  - intros s loc name other E1 E2 N f. subst f. cbn [step].
    rewrite filters_effect_filters.
    unfold press_subLocation, handleFilterChange. cbn [filters setFilters].
    rewrite <- E1, String.eqb_refl. cbn [andb].
    destruct (String.eqb_spec (FilterState.sub_location (filters s)) other)
      as [E3 | N3]; [exfalso; apply N; congruence |].
    destruct (filters s). split; reflexivity.
  - split; reflexivity.
Qed.

Lemma subLocation_toggle_witness :
  let s := step mounted (SubLocationPress "Dooars" "Lataguri") in
  (FilterState.location (filters s) = "Dooars"%string
   /\ FilterState.sub_location (filters s) = "Lataguri"%string
   /\ "Chalsa"%string <> "Lataguri"%string)
  /\ FilterState.sub_location
       (filters (step s (SubLocationPress "Dooars" "Lataguri"))) = ""%string
  /\ FilterState.sub_location
       (filters (step s (SubLocationPress "Dooars" "Chalsa"))) = "Chalsa"%string
  /\ FilterState.sub_location
       (filters (step mounted (SubLocationPress "Dooars" "Lataguri")))
     = "Lataguri"%string.
Proof.
  intros s.
  assert (H : FilterState.location (filters s) = "Dooars"%string
              /\ FilterState.sub_location (filters s) = "Lataguri"%string
              /\ "Chalsa"%string <> "Lataguri"%string)
    by (repeat split; discriminate).
  destruct H as (E1 & E2 & N).
  split; [repeat split; assumption |].
  destruct subLocation_toggle as (Hset & Hclear & Hmove & _).
  split; [| split].
  - exact (proj1 (proj2 (Hclear s "Dooars"%string "Lataguri"%string E1 E2))).
  - exact (proj2 (Hmove s "Dooars"%string "Lataguri"%string "Chalsa"%string E1 E2 N)).
  - refine (proj1 (proj2 (Hset mounted "Dooars"%string "Lataguri"%string _))).
    intros [C _]; discriminate C.
Defined.

(** ** Query string *)

Lemma num_nonzero_iff (q : Q) : JS.num_nonzero q = true <-> ~ (q == 0)%Q.
Proof.
  unfold JS.num_nonzero. rewrite negb_true_iff. split.
  - intros H. now apply Qeq_bool_neq.
  - intros H. apply not_true_is_false. intros T. apply H.
    now apply Qeq_bool_iff.
Qed.

Ltac split_string_filters :=
  repeat match goal with
         | |- context [JS.truthy_string ?v] => is_var v; destruct v
         end.

Ltac string_param :=
  let v := fresh "v" in
  intros v; split_string_filters;
  match goal with
  | mi : option Q |- _ =>
      destruct mi as [? |];
      [match goal with |- context [JS.num_nonzero ?q] => destruct (JS.num_nonzero q) end |]
  end;
  cbn;
  (split;
   [ try discriminate;
     let E := fresh in intros E; injection E as <-; split; [reflexivity | discriminate]
   | let E := fresh in let N := fresh in intros [E N]; congruence ]).

(** C10. A filter parameter is in the query string exactly when its
    value is truthy: an empty search, location, sub_location or category
    is left out, and so is a minimum rating of zero, which yields the
    query string of no threshold at all. *)
Theorem query_params_only_truthy
    (Number_toString : Q -> string) (pageNum : Z) (f : FilterState.t) :
  let ps := URLSearchParams Number_toString pageNum f in
  (forall v, params_get "search" ps = Some v
             <-> FilterState.search f = v /\ v <> ""%string)
  /\ (forall v, params_get "location" ps = Some v
                <-> FilterState.location f = v /\ v <> ""%string)
  /\ (forall v, params_get "sub_location" ps = Some v
                <-> FilterState.sub_location f = v /\ v <> ""%string)
  /\ (forall v, params_get "category" ps = Some v
                <-> FilterState.category f = v /\ v <> ""%string)
  /\ (forall v, params_get "min_rating" ps = Some v
                <-> exists q, FilterState.min_rating f = Some q
                              /\ ~ (q == 0)%Q /\ v = Number_toString q)
  /\ (forall q, FilterState.min_rating f = Some q -> (q == 0)%Q ->
                params_get "min_rating" ps = None
                /\ ps = URLSearchParams Number_toString pageNum
                          (spread_update f (SetMinRating None))).
Proof.
  destruct f as [se lo su ca mi so]. intros ps. subst ps.
  unfold URLSearchParams.
  cbn [FilterState.search FilterState.location FilterState.sub_location
       FilterState.category FilterState.min_rating FilterState.sort_by
       spread_update].
  assert (Hmi : forall q, mi = Some q -> (q == 0)%Q -> JS.num_nonzero q = false).
  { intros q _ Hq. apply not_true_is_false. intros T.
    now apply num_nonzero_iff in T. }
  split; [| split; [| split; [| split; [| split]]]].
  - string_param.
  - string_param.
  - string_param.
  - string_param.
  - intros v. split.
    + split_string_filters;
        (destruct mi as [q |]; [destruct (JS.num_nonzero q) eqn:Eq |]); cbn;
        try discriminate;
        intros E; injection E as <-; exists q;
        (split; [reflexivity | split; [now apply num_nonzero_iff | reflexivity]]).
    + intros (q & E & N & ->). subst mi. apply num_nonzero_iff in N. rewrite N.
      split_string_filters; cbn; rewrite ?String.eqb_refl; reflexivity.
  - intros q E Hq. subst mi. rewrite (Hmi q eq_refl Hq). split.
    + split_string_filters; reflexivity.
    + reflexivity.
Qed.

Lemma query_params_only_truthy_witness :
  let toStr := fun q : Q => page_toString (Qfloor q) in
  let f := spread_update FilterState.default (SetMinRating (Some 0%Q)) in
  (FilterState.min_rating f = Some 0%Q /\ (0 == 0)%Q)
  /\ params_get "min_rating" (URLSearchParams toStr 1 f) = None
  /\ URLSearchParams toStr 1 f = URLSearchParams toStr 1 FilterState.default.
Proof.
  intros toStr f.
  assert (H : FilterState.min_rating f = Some 0%Q /\ (0 == 0)%Q)
    by (split; reflexivity).
  split; [exact H |].
  destruct (query_params_only_truthy toStr 1 f) as (_ & _ & _ & _ & _ & Hzero).
  exact (Hzero 0%Q (proj1 H) (proj2 H)).
Defined.

Example URLSearchParams_ex :
  URLSearchParams (fun _ => "4.5"%string) 2
    {| FilterState.search := "tea"; FilterState.location := "Dooars";
       FilterState.sub_location := ""; FilterState.category := "";
       FilterState.min_rating := Some (9 # 2);
       FilterState.sort_by := "reviews_desc" |}
  = [("page", "2"); ("per_page", "20"); ("sort_by", "reviews_desc");
     ("search", "tea"); ("location", "Dooars"); ("min_rating", "4.5")]%string.
Proof. reflexivity. Qed.

(** ** Accumulated list *)

Lemma nth_error_last {A} (l : list A) (x : A) :
  nth_error (l ++ [x]) (Nat.pred (List.length (l ++ [x]))) = Some x.
Proof.
  rewrite length_app. cbn [List.length]. rewrite Nat.add_1_r. cbn [Nat.pred].
  rewrite nth_error_app2 by lia. now rewrite Nat.sub_diag.
Qed.

Lemma remove_nth_last {A} (l : list A) (x : A) :
  remove_nth (Nat.pred (List.length (l ++ [x]))) (l ++ [x]) = l.
Proof.
  rewrite length_app. cbn [List.length]. rewrite Nat.add_1_r. cbn [Nat.pred].
  induction l as [| y l IH]; [reflexivity |].
  cbn [List.length app remove_nth]. now rewrite IH.
Qed.

(** The fetch issued last settles: its continuation runs on the state in
    which only the log of issued requests remembers it. *)
Lemma settle_latest_fetchProperties k f b o (s : State) :
  settle_latest o (fetchProperties k f b s)
  = fetchProperties_settled (mkRequest k f b) o
      (mkState (properties s)
               (if k =? 1 then (if b then loading s else true) else loading s)
               (if k =? 1 then (if b then true else refreshing s) else refreshing s)
               (page s) (hasMore s) (total s) (filters s) (inflight s)
               (sent s ++ [mkRequest k f b]) (alerts s)).
Proof.
  unfold settle_latest, settle, fetchProperties, fetch.
  destruct (k =? 1); [destruct b |];
    cbn [inflight setRefreshing setLoading];
    rewrite nth_error_last, remove_nth_last; destruct s; reflexivity.
Qed.

(** A first-page trigger followed by its good response: the list is the
    response's, whatever it was before. *)
Lemma first_page_settled (s : State) (e : Event) (d : APIResponse.t) :
  first_page_trigger e = true ->
  let s1 := step s e in
  let s2 := settle_latest (Ok d) s1 in
  properties s2 = APIResponse.properties d
  /\ page s2 = 1
  /\ loading s2 = false
  /\ hasMore s2 = (1 <? APIResponse.total_pages d)
  /\ filters s2 = filters s1
  /\ inflight s2 = inflight s
  /\ sent s2 = sent s1
  /\ sent s1 = sent s ++ [mkRequest 1 (filters s1)
                            (match e with Refresh => true | _ => false end)].
Proof.
  intros H s1 s2. subst s1 s2.
  destruct e; try discriminate H; cbn [step];
    unfold filters_effect, handleRefresh;
    rewrite settle_latest_fetchProperties; repeat split.
Qed.

Lemma load_pages_concat (ds : list APIResponse.t) :
  forall s : State,
    1 <= page s ->
    loading s = false ->
    (ds <> [] -> hasMore s = true) ->
    pages_follow (page s + 1) ds = true ->
    let s' := load_pages ds s in
    properties s' = properties s ++ List.concat (map APIResponse.properties ds)
    /\ sent s' = sent s ++ page_requests (page s + 1) (List.length ds) (filters s)
    /\ inflight s' = inflight s
    /\ page s' = page s + Z.of_nat (List.length ds)
    /\ filters s' = filters s.
Proof.
  induction ds as [| d rest IH]; intros s Hp Hl Hm Hf.
  - cbn. rewrite !app_nil_r, Z.add_0_r. repeat split.
  - cbn [load_pages]. unfold handleLoadMore.
    rewrite Hl, (Hm ltac:(discriminate)). cbn [negb andb].
    rewrite settle_latest_fetchProperties.
    assert (Hk : (page s + 1 =? 1) = false) by (apply Z.eqb_neq; lia).
    unfold fetchProperties_settled. cbn [pageNum newFilters isRefresh].
    rewrite Hk.
    match goal with |- context [load_pages rest ?st] => set (s1 := st) end.
    assert (Hm1 : rest <> [] -> hasMore s1 = true).
    { intros Hr. cbn [pages_follow] in Hf. destruct rest as [| d2 rest2];
        [now destruct Hr |].
      apply andb_true_iff in Hf. exact (proj1 Hf). }
    assert (Hf1 : pages_follow (page s1 + 1) rest = true).
    { cbn [pages_follow] in Hf. destruct rest as [| d2 rest2]; [reflexivity |].
      apply andb_true_iff in Hf. exact (proj2 Hf). }
    destruct (IH s1 ltac:(cbn; lia) eq_refl Hm1 Hf1) as (P & S & I & G & F).
    rewrite P, S, I, G, F. subst s1. cbn.
    rewrite <- !app_assoc. repeat split. lia.
Qed.

(** The first page and the pages after it, each awaited: the list is
    their items in fetch order. *)
Lemma pages_run_concat
    (s : State) (e : Event) (d1 : APIResponse.t) (ds : list APIResponse.t) :
  first_page_trigger e = true ->
  pages_follow 1 (d1 :: ds) = true ->
  let s1 := settle_latest (Ok d1) (step s e) in
  let s' := load_pages ds s1 in
  properties s1 = APIResponse.properties d1
  /\ properties s' = List.concat (map APIResponse.properties (d1 :: ds))
  /\ List.length (properties s')
     = list_sum (map (fun d => List.length (APIResponse.properties d)) (d1 :: ds))
  /\ sent s'
     = sent s
         ++ mkRequest 1 (filters s') (match e with Refresh => true | _ => false end)
         :: page_requests 2 (List.length ds) (filters s').
Proof.
  intros He Hf s1 s'.
  destruct (first_page_settled s e d1 He) as (P1 & G1 & L1 & M1 & F1 & _ & S1 & S0).
  fold s1 in P1, G1, L1, M1, F1, S1.
  assert (Hm : ds <> [] -> hasMore s1 = true).
  { intros Hd. rewrite M1. cbn [pages_follow] in Hf.
    destruct ds as [| d2 ds2]; [now destruct Hd |].
    apply andb_true_iff in Hf. exact (proj1 Hf). }
  assert (Hf' : pages_follow (page s1 + 1) ds = true).
  { rewrite G1. cbn [pages_follow] in Hf.
    destruct ds as [| d2 ds2]; [reflexivity |].
    apply andb_true_iff in Hf. exact (proj2 Hf). }
  destruct (load_pages_concat ds s1 ltac:(lia) L1 Hm Hf') as (P & S & _ & _ & F).
  fold s' in P, S, F.
  assert (Hall : properties s' = List.concat (map APIResponse.properties (d1 :: ds)))
    by (rewrite P, P1; reflexivity).
  split; [exact P1 |]. split; [exact Hall |]. split.
  - rewrite Hall, length_concat, map_map. reflexivity.
  - rewrite S, S1, S0, F, G1, F1, <- app_assoc. reflexivity.
Qed.

(** A first-page trigger whose request fails: the list is the one shown
    before the trigger. *)
Lemma first_page_failed (s : State) (e : Event) :
  first_page_trigger e = true ->
  properties (step s e) = properties s
  /\ properties (settle_latest Failed (step s e)) = properties s
  /\ filters (settle_latest Failed (step s e)) = filters (step s e).
Proof.
  intros H.
  destruct e; try discriminate H; cbn [step];
    unfold filters_effect, handleRefresh;
    rewrite settle_latest_fetchProperties; repeat split.
Qed.

(** Counterexample to C5 as stated.  A list is shown and the search
    changes: the list is still shown while the new request is pending,
    and when that request fails it stays, under the new filter. *)
Lemma filter_change_keeps_list :
  let a := sample "1" "A" in
  let s := run [Settle 0 (Ok (body [a] 1 1)); Settle 0 (Ok (body [a] 1 1))] mounted in
  let s1 := step s (FilterChange (SetSearch "B")) in
  (properties s = [a] /\ properties s1 = [a]
   /\ filters s1 = spread_update FilterState.default (SetSearch "B"))
  /\ properties (settle_latest Failed s1) = [a]
  /\ ~ list_replaced_on_trigger.
Proof.
  intros a s s1.
  split; [vm_compute; repeat split |]. split; [vm_compute; reflexivity |].
  intros H.
  specialize (H [Settle 0 (Ok (body [a] 1 1)); Settle 0 (Ok (body [a] 1 1))]
                (FilterChange (SetSearch "B")) Failed a eq_refl).
  apply H. vm_compute. left. reflexivity.
Qed.

(** C5 (amended). After N pages fetched one after the other under
    unchanged filters the list is the pages' items in fetch order, as
    many as the pages hold together, requested as pages 1 to N.  A
    filter change or a refresh does not discard the list: the list is
    kept while the new first-page request is pending, is replaced by the
    new first page when that request succeeds, and is kept when it
    fails. *)
Theorem sequential_pages_concat
    (s : State) (e : Event) (d1 : APIResponse.t) (ds : list APIResponse.t) :
  first_page_trigger e = true ->
  pages_follow 1 (d1 :: ds) = true ->
  let s1 := settle_latest (Ok d1) (step s e) in
  let s' := load_pages ds s1 in
  properties (step s e) = properties s
  /\ properties (settle_latest Failed (step s e)) = properties s
  /\ properties s1 = APIResponse.properties d1
  /\ properties s' = List.concat (map APIResponse.properties (d1 :: ds))
  /\ List.length (properties s')
     = list_sum (map (fun d => List.length (APIResponse.properties d)) (d1 :: ds))
  /\ sent s'
     = sent s
         ++ mkRequest 1 (filters s') (match e with Refresh => true | _ => false end)
         :: page_requests 2 (List.length ds) (filters s').
Proof.
  intros He Hf s1 s'.
  destruct (first_page_failed s e He) as (K & F & _).
  split; [exact K |]. split; [exact F |].
  exact (pages_run_concat s e d1 ds He Hf).
Qed.

Lemma sequential_pages_concat_witness :
  let a := sample "1" "A" in
  let b := sample "2" "B" in
  let c := sample "3" "C" in
  let s := run [Settle 0 (Ok (body [c] 1 1)); Settle 0 (Ok (body [c] 1 1))] mounted in
  (first_page_trigger Refresh = true
   /\ pages_follow 1 [body [a; b] 1 2; body [c] 2 2] = true)
  /\ properties (load_pages [body [c] 2 2]
                   (settle_latest (Ok (body [a; b] 1 2)) (step s Refresh)))
     = [a; b; c]
  /\ properties (settle_latest Failed (step s Refresh)) = properties s.
Proof.
  intros a b c s.
  assert (H : first_page_trigger Refresh = true
              /\ pages_follow 1 [body [a; b] 1 2; body [c] 2 2] = true)
    by (split; reflexivity).
  split; [exact H |].
  destruct (sequential_pages_concat s Refresh (body [a; b] 1 2)
              [body [c] 2 2] (proj1 H) (proj2 H)) as (_ & F & _ & P & _).
  split; [exact P | exact F].
Defined.

(** Without [pages_follow] the run stops short: after a page that
    announces no successor, [loadMore()] fetches nothing. *)
Example load_pages_stops :
  let a := sample "1" "A" in
  let s0 := run [Settle 0 (Ok (body [a] 1 1)); Settle 0 (Ok (body [a] 1 1))] mounted in
  let s := load_pages [body [a] 2 1]
             (settle_latest (Ok (body [a] 1 1)) (step s0 Refresh)) in
  properties s = [a] /\ List.length (sent s) = 3%nat.
Proof. split; reflexivity. Qed.

(** ** Responses out of order *)

(** Counterexample to C1 as stated.  The search changes from "A" to "B"
    while the request for "A" is pending; the response for "B" arrives
    first, the one for "A" after it, and the list under the filter "B"
    shows the items of "A". *)
Lemma stale_response_overwrites :
  let a := sample "1" "A" in
  let b := sample "2" "B" in
  let s := run [Settle 0 (Ok (body [] 1 0)); Settle 0 (Ok (body [] 1 0));
                FilterChange (SetSearch "A"); FilterChange (SetSearch "B");
                Settle 1 (Ok (body [b] 1 1))] mounted in
  (properties s = [b]
   /\ filters s = spread_update FilterState.default (SetSearch "B")
   /\ inflight s
      = [mkRequest 1 (spread_update FilterState.default (SetSearch "A")) false])
  /\ properties (settle 0 (Ok (body [a] 1 1)) s) = [a]
  /\ ~ stale_responses_discarded.
Proof.
  intros a b s. split; [repeat split |]. split; [reflexivity |].
  intros H.
  specialize (H [Settle 0 (Ok (body [] 1 0)); Settle 0 (Ok (body [] 1 0));
                 FilterChange (SetSearch "A"); FilterChange (SetSearch "B");
                 Settle 1 (Ok (body [b] 1 1))]
                0%nat
                (mkRequest 1 (spread_update FilterState.default (SetSearch "A")) false)
                (body [a] 1 1) eq_refl).
  cbv zeta in H. assert (C : [a] = [b]) by (apply H; discriminate).
  discriminate C.
Qed.

(** C1 (amended). Every good response is applied when it arrives, with no
    check of the request it answers: the response to a first-page
    request replaces the list by its own items, so that nothing of the
    list shown before remains, and any other response is appended. *)
Theorem response_applied_on_arrival
    (s : State) (i : nat) (r : Request) (d : APIResponse.t) :
  nth_error (inflight s) i = Some r ->
  let s' := settle i (Ok d) s in
  (pageNum r = 1 -> properties s' = APIResponse.properties d)
  /\ (pageNum r <> 1 -> properties s' = properties s ++ APIResponse.properties d)
  /\ total s' = APIResponse.total d
  /\ filters s' = filters s.
Proof.
  intros H s'. subst s'. unfold settle. rewrite H.
  unfold fetchProperties_settled.
  destruct (Z.eqb_spec (pageNum r) 1) as [E | N]; repeat split;
    intros; try reflexivity; contradiction.
Qed.

Lemma response_applied_on_arrival_witness :
  let a := sample "1" "A" in
  nth_error (inflight mounted) 0 = Some (mkRequest 1 FilterState.default false)
  /\ properties (settle 0 (Ok (body [a] 1 1)) mounted) = [a].
Proof.
  intros a. split; [reflexivity |].
  exact (proj1 (response_applied_on_arrival mounted 0
                  (mkRequest 1 FilterState.default false) (body [a] 1 1) eq_refl)
               eq_refl).
Defined.

(** ** Failed requests *)

(** Counterexample to C2 as stated.  A list is shown, the search
    changes, and the first-page request of the new search fails: the list
    is still there. *)
Lemma failed_first_page_keeps_list :
  let a := sample "1" "A" in
  let s := run [Settle 0 (Ok (body [a] 1 1)); Settle 0 (Ok (body [a] 1 1));
                FilterChange (SetSearch "B")] mounted in
  (properties s = [a]
   /\ inflight s
      = [mkRequest 1 (spread_update FilterState.default (SetSearch "B")) false])
  /\ properties (settle 0 Failed s) = [a]
  /\ ~ failed_first_page_clears.
Proof.
  intros a s. split; [split; reflexivity |]. split; [reflexivity |].
  intros H.
  specialize (H [Settle 0 (Ok (body [a] 1 1)); Settle 0 (Ok (body [a] 1 1));
                 FilterChange (SetSearch "B")]
                0%nat
                (mkRequest 1 (spread_update FilterState.default (SetSearch "B")) false)
                eq_refl eq_refl).
  discriminate H.
Qed.

(** C2 (amended). A failed request raises the alert "Failed to load
    properties. Please try again.", clears both loading flags and leaves
    list, page cursor, [hasMore], total and filters as they were, for a
    first page as for a next page; [handleRefresh], the action of the
    Retry button, then sends one request, whose query string is that of
    the failed request when this was a first-page request under the
    current filters. *)
Theorem failure_keeps_list (s : State) (i : nat) (r : Request) :
  nth_error (inflight s) i = Some r ->
  let s' := settle i Failed s in
  properties s' = properties s
  /\ page s' = page s /\ hasMore s' = hasMore s /\ total s' = total s
  /\ filters s' = filters s
  /\ loading s' = false /\ refreshing s' = false
  /\ alerts s'
     = alerts s ++ [("Error", "Failed to load properties. Please try again.")]%string
  /\ sent s' = sent s
  /\ inflight s' = remove_nth i (inflight s)
  /\ exists retry : Request,
       sent (handleRefresh s') = sent s' ++ [retry]
       /\ (pageNum r = 1 -> newFilters r = filters s ->
           forall toStr, request_params toStr retry = request_params toStr r).
Proof.
  intros H s'. subst s'. unfold settle. rewrite H.
  repeat (split; [reflexivity |]).
  eexists. split; [reflexivity |].
  intros Hp Hf toStr. unfold request_params. cbn. now rewrite Hp, Hf.
Qed.

Lemma failure_keeps_list_witness :
  let a := sample "1" "A" in
  let s := run [Settle 0 (Ok (body [a] 1 1)); Settle 0 (Ok (body [a] 1 1));
                FilterChange (SetSearch "B")] mounted in
  nth_error (inflight s) 0
  = Some (mkRequest 1 (spread_update FilterState.default (SetSearch "B")) false)
  /\ properties (settle 0 Failed s) = properties s.
Proof.
  intros a s. split; [reflexivity |].
  exact (proj1 (failure_keeps_list s 0
                  (mkRequest 1 (spread_update FilterState.default (SetSearch "B")) false)
                  eq_refl)).
Defined.

(** ** End of pagination *)

(** Counterexample to C6 as stated.  The two first-page requests of the
    mount are pending.  The first is answered (page 1 of 2), page 2 is
    loaded and ends the pagination; then the answer to the second mount
    request arrives: [hasMore] is true again and [loadMore()] asks for
    page 3. *)
Lemma late_response_reopens_pagination :
  let a := sample "1" "A" in
  let b := sample "2" "B" in
  let s := run [Settle 0 (Ok (body [a] 1 2)); LoadMore;
                Settle 1 (Ok (body [b] 2 2))] mounted in
  let s' := run [Settle 0 (Ok (body [a] 1 2))] s in
  (hasMore s = false /\ properties s = [a; b]
   /\ inflight s = [mkRequest 1 FilterState.default false])
  /\ (hasMore s' = true /\ properties s' = [a])
  /\ sent (handleLoadMore s') = sent s' ++ [mkRequest 3 FilterState.default false]
  /\ ~ pagination_halts.
Proof.
  intros a b s s'. split; [repeat split |]. split; [repeat split |].
  split; [reflexivity |].
  intros H.
  specialize (H [Settle 0 (Ok (body [a] 1 2)); LoadMore;
                 Settle 1 (Ok (body [b] 2 2))]
                [Settle 0 (Ok (body [a] 1 2))] eq_refl eq_refl).
  apply (f_equal page) in H. discriminate H.
Qed.

Lemma settle_nothing_pending (s : State) (i : nat) (o : Outcome) :
  inflight s = [] -> settle i o s = s.
Proof.
  intros H. unfold settle. rewrite H. now destruct i.
Qed.

Lemma loadMore_iter_noop (n : nat) (s : State) :
  hasMore s = false -> Nat.iter n handleLoadMore s = s.
Proof.
  intros H. induction n as [| n IH]; [reflexivity |].
  change (handleLoadMore (Nat.iter n handleLoadMore s) = s).
  rewrite IH. unfold handleLoadMore.
  now rewrite H, andb_false_r.
Qed.

(** C6 (amended). A good response sets [hasMore] to whether the page
    asked for is below the [total_pages] it reports.  While [hasMore] is
    false every [loadMore()] is without effect, and [hasMore] stays false
    through every event but a good response; with no request pending
    that takes a filter change or a refresh. *)
Theorem hasMore_until_next_response :
  (forall (s : State) (i : nat) (r : Request) (d : APIResponse.t),
      nth_error (inflight s) i = Some r ->
      hasMore (settle i (Ok d) s) = (pageNum r <? APIResponse.total_pages d))
  /\ (forall (s : State) (n : nat),
         hasMore s = false -> Nat.iter n handleLoadMore s = s)
  /\ (forall (s : State) (e : Event),
         hasMore s = false ->
         (forall i d, e <> Settle i (Ok d)) ->
         hasMore (step s e) = false)
  /\ (forall (s : State) (es : list Event),
         hasMore s = false ->
         inflight s = [] ->
         forallb (fun e => negb (first_page_trigger e)) es = true ->
         run es s = s).
Proof.
  split; [| split; [| split]].
  - intros s i r d H. unfold settle. rewrite H. reflexivity.
  - intros s n H. now apply loadMore_iter_noop.
  - intros s e H Hne. destruct e as [u | loc name | | | | i o]; cbn [step];
      try exact H.
    + unfold handleLoadMore. rewrite H, andb_false_r. exact H.
    + unfold settle. destruct (nth_error (inflight s) i) as [r |]; [| exact H].
      destruct o as [d |]; [now destruct (Hne i d) | exact H].
  - intros s es H Hi. induction es as [| e es IH]; intros Hes; [reflexivity |].
    cbn [forallb] in Hes. apply andb_true_iff in Hes. destruct Hes as [He Hes].
    assert (Hs : step s e = s).
    { destruct e; try discriminate He; cbn [step].
      - exact (loadMore_iter_noop 1 s H).
      - now apply settle_nothing_pending. }
    unfold run in *. cbn [fold_left]. rewrite Hs. exact (IH Hes).
Qed.

Lemma hasMore_until_next_response_witness :
  let a := sample "1" "A" in
  let s := run [Settle 0 (Ok (body [a] 1 1)); Settle 0 (Ok (body [a] 1 1))] mounted in
  (hasMore s = false /\ inflight s = []
   /\ forallb (fun e => negb (first_page_trigger e))
        [LoadMore; Settle 0 Failed; LoadMore] = true)
  /\ run [LoadMore; Settle 0 Failed; LoadMore] s = s
  /\ hasMore (settle 0 (Ok (body [a] 1 1)) mounted) = false.
Proof.
  intros a s.
  assert (H : hasMore s = false /\ inflight s = []
              /\ forallb (fun e => negb (first_page_trigger e))
                   [LoadMore; Settle 0 Failed; LoadMore] = true)
    by (repeat split).
  split; [exact H |].
  destruct hasMore_until_next_response as (Hset & _ & _ & Hrun).
  split.
  - exact (Hrun s _ (proj1 H) (proj1 (proj2 H)) (proj2 (proj2 H))).
  - exact (Hset mounted 0%nat (mkRequest 1 FilterState.default false)
             (body [a] 1 1) eq_refl).
Defined.

(** ** Re-entrant triggers *)

(** Counterexample to C7 as stated.  Both mount requests fail, so the
    empty list shows its Retry button; Retry starts a refresh, and Retry
    pressed again while that refresh is pending sends a second request. *)
Lemma refresh_reentrant :
  let s := run [Settle 0 Failed; Settle 0 Failed; Refresh] mounted in
  (properties s = [] /\ loading s = false /\ refreshing s = true
   /\ inflight s = [mkRequest 1 FilterState.default true])
  /\ sent (handleRefresh s) = sent s ++ [mkRequest 1 FilterState.default true]
  /\ ~ reentrant_triggers_ignored.
Proof.
  intros s.
  split; [vm_compute; repeat split |]. split; [vm_compute; reflexivity |].
  intros H.
  destruct (H [Settle 0 Failed; Settle 0 Failed; Refresh]) as [Hr _].
  fold s in Hr.
  assert (P : exists r, In r (inflight s) /\ isRefresh r = true).
  { exists (mkRequest 1 FilterState.default true). vm_compute. auto. }
  apply Hr in P. apply (f_equal (@List.length Request)) in P.
  vm_compute in P. discriminate P.
Qed.

(** [loading] is raised by a first-page call that is not a refresh, and
    by no other. *)
Lemma fetchProperties_loading k f b (s : State) :
  loading (fetchProperties k f b s) = loading s || ((k =? 1) && negb b).
Proof.
  unfold fetchProperties. destruct (k =? 1); [destruct b |]; cbn;
    now rewrite ?orb_false_r, ?orb_true_r.
Qed.

(** A next-page fetch leaves [loading] false, and [handleLoadMore]
    called again before it settles asks for the page after. *)
Example loadMore_reentrant :
  let a := sample "1" "A" in
  let s := run [Settle 0 (Ok (body [a] 1 3)); Settle 0 (Ok (body [a] 1 3));
                LoadMore] mounted in
  inflight s = [mkRequest 2 FilterState.default false]
  /\ inflight (handleLoadMore s)
     = [mkRequest 2 FilterState.default false;
        mkRequest 3 FilterState.default false].
Proof. split; reflexivity. Qed.

(** C7 (amended). While [loading] is true, which a first-page fetch that
    is not a refresh makes it and no other fetch does, a load-more
    trigger is ignored and sends nothing; a refresh trigger is never
    ignored: [handleRefresh] sends a first-page request in every state. *)
Theorem loadMore_ignored_while_loading (s : State) :
  loading s = true ->
  (handleLoadMore s = s /\ sent (handleLoadMore s) = sent s)
  /\ (forall (s0 : State) (f : FilterState.t),
         loading (fetchProperties 1 f false s0) = true)
  /\ (forall (s0 : State) (k : Z) (f : FilterState.t) (b : bool),
         (k =? 1) && negb b = false ->
         loading (fetchProperties k f b s0) = loading s0)
  /\ (forall s0 : State,
         sent (handleRefresh s0) = sent s0 ++ [mkRequest 1 (filters s0) true]).
Proof.
  intros H. split; [| split; [| split]].
  - unfold handleLoadMore. rewrite H. cbn [negb andb]. split; reflexivity.
  - intros s0 f. rewrite fetchProperties_loading. cbn. apply orb_true_r.
  - intros s0 k f b Hk. rewrite fetchProperties_loading, Hk. apply orb_false_r.
  - intros s0. reflexivity.
Qed.

Lemma loadMore_ignored_while_loading_witness :
  loading mounted = true /\ handleLoadMore mounted = mounted.
Proof.
  split; [reflexivity |].
  exact (proj1 (proj1 (loadMore_ignored_while_loading mounted eq_refl))).
Defined.

(** * Further properties of the listing screen *)

(** ** Star renderer outside the rating scale *)

Lemma rem1_zero_iff (r : Q) :
  JS.num_nonzero (JS.rem1 r) = false <-> Qceiling r = Qfloor r.
Proof.
  unfold JS.num_nonzero, JS.rem1, JS.trunc. rewrite negb_false_iff, Qeq_bool_iff.
  pose proof (Qlt_floor r) as Hlt. pose proof (Qfloor_le r) as Hle.
  destruct (Qceiling_floor r) as [[E C] | [N C]]; rewrite C in *.
  - split; [reflexivity | intros _].
    destruct (Qle_bool 0 r); lra.
  - split; [| lia]. intros H. exfalso.
    destruct (Qle_bool 0 r); [apply N; lra |].
    rewrite inject_Z_plus in Hlt. change (inject_Z 1) with 1%Q in Hlt.
    rewrite inject_Z_plus in H. change (inject_Z 1) with 1%Q in H. lra.
Qed.

Lemma Qfloor_nonneg_iff (r : Q) : 0 <= Qfloor r <-> (0 <= r)%Q.
Proof.
  split; intros H.
  - apply Qle_trans with (inject_Z (Qfloor r)); [| apply Qfloor_le].
    change 0%Q with (inject_Z 0). now rewrite <- Zle_Qle.
  - rewrite <- (Qfloor_Z 0). now apply Qfloor_resp_le.
Qed.

Lemma Qceiling_le_iff (r : Q) (n : Z) : Qceiling r <= n <-> (r <= inject_Z n)%Q.
Proof.
  split; intros H.
  - apply Qle_trans with (inject_Z (Qceiling r)); [apply Qle_ceiling |].
    now rewrite <- Zle_Qle.
  - rewrite <- (Qceiling_Z n). now apply Qceiling_resp_le.
Qed.

Lemma renderStars_length_cases (rating : Q) :
  (5 <= List.length (renderStars rating))%nat
  /\ (List.length (renderStars rating) = 5%nat
      <-> (0 <= rating)%Q /\ (rating <= 5)%Q).
Proof.
  rewrite <- Qfloor_nonneg_iff.
  change 5%Q with (inject_Z 5). rewrite <- Qceiling_le_iff.
  unfold renderStars, JS.push_times.
  rewrite !length_app, !repeat_length.
  destruct (JS.num_nonzero (JS.rem1 rating)) eqn:E.
  - assert (C : Qceiling rating = Qfloor rating + 1).
    { destruct (Qceiling_floor rating) as [[_ C] | [_ C]]; [| exact C].
      apply rem1_zero_iff in C. congruence. }
    rewrite C. cbn [List.length]. lia.
  - apply rem1_zero_iff in E. rewrite E. cbn [List.length]. lia.
Qed.

(** X1. For every finite rating the star row has at least five glyphs,
    and it has exactly five precisely for the ratings from 0 to 5: a
    finite rating outside the scale lengthens the row.  ([NaN] and the
    infinities are no rationals and are not covered.) *)
Theorem renderStars_length (rating : Q) :
  (5 <= List.length (renderStars rating))%nat
  /\ (List.length (renderStars rating) = 5%nat
      <-> (0 <= rating)%Q /\ (rating <= 5)%Q).
Proof. exact (renderStars_length_cases rating). Qed.

Example renderStars_beyond_scale :
  renderStars (11 # 2) = [Star; Star; Star; Star; Star; StarHalf]
  /\ List.length (renderStars (- (1 # 2))) = 6%nat.
Proof. split; reflexivity. Qed.

(** ** Invariants of the fetch state machine *)

(** A session of the screen is a run of events. *)
Lemma session_is_run (acts : list Action) :
  forall s : State, exists es : list Event, session acts s = run es s.
Proof.
  induction acts as [| a acts IH]; intros s.
  - now exists [].
  - destruct (IH (act s a)) as [es Hes].
    assert (Ha : exists e, act s a = step s e).
    { destruct a as [text | loc name | category | | | | i o].
      - now exists (FilterChange (SetSearch text)).
      - now exists (SubLocationPress loc name).
      - now exists (FilterChange
                      (SetCategory
                         (if String.eqb (FilterState.category (filters s)) category
                          then ""%string else category))).
      - now exists ClearFilters.
      - now exists LoadMore.
      - now exists Refresh.
      - now exists (Settle i o). }
    destruct Ha as [e He]. exists (e :: es).
    cbn [session fold_left run] in *. unfold session, run in Hes.
    now rewrite <- He.
Qed.

(** An invariant kept by every event holds after every run. *)
Lemma run_invariant (P : State -> Prop) :
  (forall s e, P s -> P (step s e)) ->
  forall es s, P s -> P (run es s).
Proof.
  intros Hstep es. induction es as [| e es IH]; intros s Hs; [exact Hs |].
  apply (IH (step s e)). now apply Hstep.
Qed.

Lemma step_loading_on_first_page (s : State) (e : Event) :
  loading_on_first_page s -> loading_on_first_page (step s e).
Proof.
  intros [Hp Hl]. unfold loading_on_first_page.
  destruct e as [u | loc name | | | | i o]; cbn [step];
    try (cbn; split; [lia | reflexivity]).
  - unfold handleLoadMore.
    destruct (loading s) eqn:L; cbn [negb andb]; [split; auto |].
    destruct (hasMore s); cbn [negb andb]; [| split; [exact Hp | congruence]].
    unfold fetchProperties.
    destruct (Z.eqb_spec (page s + 1) 1) as [E | N]; cbn; split;
      lia || congruence.
  - unfold settle. destruct (nth_error (inflight s) i) as [r |]; [| now split].
    destruct o as [d |]; cbn.
    + destruct (pageNum r =? 1); cbn; split; assumption || discriminate.
    + split; assumption || discriminate.
Qed.

(** X2. In every state the screen can reach, the page cursor is at
    least 1 and [loading] is true on page 1 only: the full-page spinner,
    rendered under [loading && page === 1], shows exactly when [loading]
    is true. *)
Theorem spinner_iff_loading (es : list Event) :
  let s := run es mounted in
  1 <= page s /\ show_spinner s = loading s.
Proof.
  intros s.
  assert (H : loading_on_first_page s).
  { apply run_invariant; [exact step_loading_on_first_page |].
    split; [cbn; lia | reflexivity]. }
  destruct H as [Hp Hl]. split; [exact Hp |].
  unfold show_spinner. destruct (loading s); [| reflexivity].
  rewrite (Hl eq_refl). reflexivity.
Qed.

Lemma fetch_pending (r : Request) (s : State) : inflight (fetch r s) <> [].
Proof.
  cbn. destruct (inflight s); discriminate.
Qed.

Lemma fetchProperties_pending k f b (s : State) :
  inflight (fetchProperties k f b s) <> [].
Proof. unfold fetchProperties. apply fetch_pending. Qed.

Lemma step_idle_when_nothing_pending (s : State) (e : Event) :
  idle_when_nothing_pending s -> idle_when_nothing_pending (step s e).
Proof.
  intros H. unfold idle_when_nothing_pending.
  destruct e as [u | loc name | | | | i o]; cbn [step];
    try (intros C; now apply fetchProperties_pending in C).
  - unfold handleLoadMore.
    destruct (negb (loading s) && hasMore s); [| exact H].
    intros C. now apply fetchProperties_pending in C.
  - unfold settle. destruct (nth_error (inflight s) i) as [r |]; [| exact H].
    intros _. destruct o; split; reflexivity.
Qed.

(** X3. No fetch path leaves a spinner behind: in every reachable state
    with no request pending, [loading] and [refreshing] are both false. *)
Theorem no_spinner_when_idle (es : list Event) :
  let s := run es mounted in
  inflight s = [] -> loading s = false /\ refreshing s = false.
Proof.
  intros s. apply (run_invariant idle_when_nothing_pending).
  - exact step_idle_when_nothing_pending.
  - intros C. discriminate C.
Qed.

Lemma no_spinner_when_idle_witness :
  let s := run [Settle 0 Failed; Refresh; Settle 1 (Ok (body [] 1 0));
                Settle 0 Failed] mounted in
  inflight s = [] /\ loading s = false /\ refreshing s = false.
Proof.
  intros s.
  assert (H : inflight s = []) by (vm_compute; reflexivity).
  split; [exact H |].
  exact (no_spinner_when_idle
           [Settle 0 Failed; Refresh; Settle 1 (Ok (body [] 1 0)); Settle 0 Failed]
           H).
Defined.

Lemma fetchProperties_frame k f b (s : State) :
  sent (fetchProperties k f b s) = sent s ++ [mkRequest k f b]
  /\ inflight (fetchProperties k f b s) = inflight s ++ [mkRequest k f b]
  /\ page (fetchProperties k f b s) = page s
  /\ properties (fetchProperties k f b s) = properties s
  /\ hasMore (fetchProperties k f b s) = hasMore s
  /\ total (fetchProperties k f b s) = total s
  /\ filters (fetchProperties k f b s) = filters s
  /\ alerts (fetchProperties k f b s) = alerts s.
Proof.
  unfold fetchProperties. destruct (k =? 1); [destruct b |]; repeat split.
Qed.

Lemma step_cursor_is_newest_request (s : State) (e : Event) :
  cursor_is_newest_request s -> cursor_is_newest_request (step s e).
Proof.
  intros (older & r & Hs & Hp). unfold cursor_is_newest_request.
  destruct e as [u | loc name | | | | i o]; cbn [step];
    try (eexists; eexists; split; reflexivity).
  - unfold handleLoadMore.
    destruct (negb (loading s) && hasMore s); [| now exists older, r].
    destruct (fetchProperties_frame (page s + 1) (filters s) false
                (setPage (page s + 1) s)) as (S & _ & P & _).
    rewrite S, P. eexists; eexists; split; reflexivity.
  - unfold settle. destruct (nth_error (inflight s) i) as [r' |];
      [| now exists older, r].
    exists older, r. destruct o as [d |]; cbn;
      [destruct (pageNum r' =? 1) |]; now split.
Qed.

(** X4. The page cursor is the page of the request sent last, whether
    or not that request has been answered or has failed: the cursor
    counts requests, not pages received. *)
Theorem cursor_tracks_newest_request (es : list Event) :
  let s := run es mounted in
  exists (older : list Request) (r : Request),
    sent s = older ++ [r] /\ pageNum r = page s.
Proof.
  intros s. apply (run_invariant cursor_is_newest_request).
  - exact step_cursor_is_newest_request.
  - exists [mkRequest 1 FilterState.default false],
           (mkRequest 1 FilterState.default false).
    split; reflexivity.
Qed.

Lemma loadMore_failed_state (s : State) :
  loading s = false ->
  hasMore s = true ->
  settle_latest Failed (handleLoadMore s)
  = mkState (properties s) false false (page s + 1) true (total s) (filters s)
      (inflight s)
      (sent s ++ [mkRequest (page s + 1) (filters s) false])
      (alerts s ++ [("Error", "Failed to load properties. Please try again.")]%string).
Proof.
  intros L M. unfold handleLoadMore. rewrite L, M. cbn [negb andb].
  rewrite settle_latest_fetchProperties. unfold fetchProperties_settled.
  cbn. now rewrite M.
Qed.

(** X5. A next-page request that fails is not retried by the next
    load-more: the list stays as it was, the cursor stays advanced, and
    the [handleLoadMore] that follows requests the page after the one
    that failed. *)
Theorem failed_page_is_skipped (s : State) :
  loading s = false ->
  hasMore s = true ->
  let s1 := settle_latest Failed (handleLoadMore s) in
  properties s1 = properties s
  /\ page s1 = page s + 1
  /\ sent s1 = sent s ++ [mkRequest (page s + 1) (filters s) false]
  /\ inflight s1 = inflight s
  /\ sent (handleLoadMore s1)
     = sent s1 ++ [mkRequest (page s + 1 + 1) (filters s) false].
Proof.
  intros L M s1. subst s1. rewrite (loadMore_failed_state s L M).
  repeat (split; [reflexivity |]).
  unfold handleLoadMore. cbn [loading hasMore negb andb page filters].
  match goal with
  | |- sent (fetchProperties ?k ?f ?b ?st) = _ =>
      destruct (fetchProperties_frame k f b st) as (S & _)
  end.
  rewrite S. reflexivity.
Qed.

Lemma failed_page_is_skipped_witness :
  let a := sample "1" "A" in
  let s := run [Settle 0 (Ok (body [a] 1 3)); Settle 0 (Ok (body [a] 1 3))] mounted in
  (loading s = false /\ hasMore s = true)
  /\ map pageNum (sent (run [LoadMore; Settle 0 Failed; LoadMore] s)) = [1; 1; 2; 3]
  /\ properties (run [LoadMore; Settle 0 Failed; LoadMore] s) = [a].
Proof.
  intros a s.
  assert (H : loading s = false /\ hasMore s = true) by (split; reflexivity).
  split; [exact H |].
  destruct (failed_page_is_skipped s (proj1 H) (proj2 H)) as (P & _ & _ & _ & S).
  split; [| vm_compute; reflexivity].
  change (run [LoadMore; Settle 0 Failed; LoadMore] s)
    with (handleLoadMore (settle 0 Failed (handleLoadMore s))).
  change (settle 0 Failed (handleLoadMore s))
    with (settle_latest Failed (handleLoadMore s)).
  rewrite S. vm_compute. reflexivity.
Defined.

(** ** What the controls can and cannot change *)

Lemma act_sort_never_changed (s : State) (a : Action) :
  sort_never_changed s -> sort_never_changed (act s a).
Proof.
  intros [[Hs Hm] Hall]. unfold sort_never_changed, fixed_sort in *.
  assert (Hfetch : forall k f b s0,
             (FilterState.sort_by f = "reviews_desc"%string
              /\ FilterState.min_rating f = None) ->
             Forall (fun r => FilterState.sort_by (newFilters r) = "reviews_desc"%string
                              /\ FilterState.min_rating (newFilters r) = None)
                    (sent s0) ->
             Forall (fun r => FilterState.sort_by (newFilters r) = "reviews_desc"%string
                              /\ FilterState.min_rating (newFilters r) = None)
                    (sent (fetchProperties k f b s0))).
  { intros k f b s0 Hf H0.
    destruct (fetchProperties_frame k f b s0) as (S & _). rewrite S.
    apply Forall_app. split; [exact H0 |]. constructor; [exact Hf | constructor]. }
  destruct a as [text | loc name | category | | | | i o]; cbn [act].
  - unfold filters_effect. destruct (filters s) as [se lo su ca mi so] eqn:F.
    cbn in Hs, Hm. split.
    + destruct (fetchProperties_frame 1
                  (filters (setPage 1 (handleFilterChange (SetSearch text) s))) false
                  (setPage 1 (handleFilterChange (SetSearch text) s)))
        as (_ & _ & _ & _ & _ & _ & Ff & _).
      rewrite Ff. cbn. rewrite F. cbn. now split.
    + apply Hfetch; [cbn; rewrite F; cbn; now split | exact Hall].
  - unfold filters_effect. destruct (filters s) as [se lo su ca mi so] eqn:F.
    cbn in Hs, Hm. split.
    + destruct (fetchProperties_frame 1
                  (filters (setPage 1 (press_subLocation loc name s))) false
                  (setPage 1 (press_subLocation loc name s)))
        as (_ & _ & _ & _ & _ & _ & Ff & _).
      rewrite Ff. cbn. rewrite F. cbn. now split.
    + apply Hfetch; [cbn; rewrite F; cbn; now split | exact Hall].
  - unfold filters_effect. destruct (filters s) as [se lo su ca mi so] eqn:F.
    cbn in Hs, Hm. split.
    + destruct (fetchProperties_frame 1
                  (filters (setPage 1 (press_category category s))) false
                  (setPage 1 (press_category category s)))
        as (_ & _ & _ & _ & _ & _ & Ff & _).
      rewrite Ff. cbn. rewrite F. cbn. now split.
    + apply Hfetch; [cbn; rewrite F; cbn; now split | exact Hall].
  - unfold filters_effect. split.
    + destruct (fetchProperties_frame 1
                  (filters (setPage 1 (clearFilters s))) false
                  (setPage 1 (clearFilters s)))
        as (_ & _ & _ & _ & _ & _ & Ff & _).
      rewrite Ff. cbn. now split.
    + apply Hfetch; [cbn; now split | exact Hall].
  - unfold handleLoadMore.
    destruct (negb (loading s) && hasMore s); [| now split].
    split.
    + destruct (fetchProperties_frame (page s + 1) (filters s) false
                  (setPage (page s + 1) s))
        as (_ & _ & _ & _ & _ & _ & Ff & _).
      rewrite Ff. cbn. now split.
    + apply Hfetch; [now split | exact Hall].
  - unfold handleRefresh. split.
    + destruct (fetchProperties_frame 1 (filters s) true (setPage 1 s))
        as (_ & _ & _ & _ & _ & _ & Ff & _).
      rewrite Ff. cbn. now split.
    + apply Hfetch; [now split | exact Hall].
  - unfold settle. destruct (nth_error (inflight s) i) as [r |]; [| now split].
    destruct o as [d |]; cbn; [destruct (pageNum r =? 1) |]; cbn; now split.
Qed.

Lemma session_invariant (P : State -> Prop) :
  (forall s a, P s -> P (act s a)) ->
  forall acts s, P s -> P (session acts s).
Proof.
  intros Hact acts. induction acts as [| a acts IH]; intros s Hs; [exact Hs |].
  apply (IH (act s a)). now apply Hact.
Qed.

(** X6. No control of the screen changes the sort key or the rating
    threshold: through every session, every request sent asks for
    [sort_by=reviews_desc], pages of 20, and carries no [min_rating]. *)
Theorem sort_and_threshold_never_change (acts : list Action) :
  let s := session acts mounted in
  FilterState.sort_by (filters s) = "reviews_desc"%string
  /\ FilterState.min_rating (filters s) = None
  /\ forall (r : Request) (toStr : Q -> string),
       In r (sent s) ->
       params_get "sort_by" (request_params toStr r) = Some "reviews_desc"%string
       /\ params_get "per_page" (request_params toStr r) = Some "20"%string
       /\ params_get "min_rating" (request_params toStr r) = None.
Proof.
  intros s.
  assert (H : sort_never_changed s).
  { apply session_invariant; [exact act_sort_never_changed |].
    split; [now split |]. repeat constructor. }
  destruct H as [[Hs Hm] Hall]. split; [exact Hs |]. split; [exact Hm |].
  intros r toStr Hin. rewrite Forall_forall in Hall.
  destruct (Hall r Hin) as [Rs Rm].
  destruct r as [k [se lo su ca mi so] b]. cbn in Rs, Rm. subst so mi.
  unfold request_params, URLSearchParams.
  cbn [pageNum newFilters FilterState.search FilterState.location
       FilterState.sub_location FilterState.category FilterState.min_rating
       FilterState.sort_by].
  split; [reflexivity |]. split; [reflexivity |].
  split_string_filters; reflexivity.
Qed.

Lemma sort_and_threshold_never_change_witness :
  let acts := [Response 0 Failed; TypeSearch "tea"; PressCategory "Resort";
               PressLeaf "Dooars" "Lataguri"; PullRefresh] in
  let r := mkRequest 1
             (FilterState.mk "tea" "Dooars" "Lataguri" "Resort" None "reviews_desc")
             true in
  In r (sent (session acts mounted))
  /\ params_get "sort_by" (request_params (fun _ => "0"%string) r)
     = Some "reviews_desc"%string.
Proof.
  intros acts r.
  assert (H : In r (sent (session acts mounted)))
    by (vm_compute; do 5 right; left; reflexivity).
  split; [exact H |].
  exact (proj1 (proj2 (proj2 (sort_and_threshold_never_change acts))
                  r (fun _ => "0"%string) H)).
Defined.

(** X7. "Clear Filter" puts every filter back to its first value and
    sends one request, whose query string is the bare
    [page=1&per_page=20&sort_by=reviews_desc], whatever the filters
    were; the list shown is kept until the response arrives. *)
Theorem clear_sends_bare_query (s : State) (toStr : Q -> string) :
  let s' := act s PressClear in
  filters s' = FilterState.default
  /\ page s' = 1
  /\ properties s' = properties s
  /\ exists r : Request,
       sent s' = sent s ++ [r]
       /\ request_params toStr r
          = [("page", "1"); ("per_page", "20"); ("sort_by", "reviews_desc")]%string.
Proof.
  intros s'. subst s'. cbn [act]. unfold filters_effect.
  repeat (split; [reflexivity |]).
  eexists. split; reflexivity.
Qed.

(** X8. A classification option is a toggle on [category] alone:
    pressing an option that is not selected selects it, replacing the
    other one if that was selected; pressing the selected option clears
    the category; the other five filters keep their values, and one
    first-page request goes out either way. *)
Theorem category_toggle :
  (forall (s : State) (c : string),
      FilterState.category (filters s) <> c ->
      filters (act s (PressCategory c)) = spread_update (filters s) (SetCategory c))
  /\ (forall (s : State) (c : string),
         FilterState.category (filters s) = c ->
         filters (act s (PressCategory c))
         = spread_update (filters s) (SetCategory ""))
  /\ (forall (s : State) (c : string),
         let f := filters s in
         let f' := filters (act s (PressCategory c)) in
         (FilterState.search f', FilterState.location f',
          FilterState.sub_location f', FilterState.min_rating f',
          FilterState.sort_by f')
         = (FilterState.search f, FilterState.location f,
            FilterState.sub_location f, FilterState.min_rating f,
            FilterState.sort_by f)
         /\ sent (act s (PressCategory c))
            = sent s ++ [mkRequest 1 f' false]).
Proof.
  split; [| split].
  - intros s c H. cbn [act]. rewrite filters_effect_filters.
    unfold press_category, handleFilterChange. cbn [filters setFilters].
    destruct (String.eqb_spec (FilterState.category (filters s)) c);
      [contradiction | reflexivity].
  - intros s c H. cbn [act]. rewrite filters_effect_filters.
    unfold press_category, handleFilterChange. cbn [filters setFilters].
    now rewrite <- H, String.eqb_refl.
  - intros s c f f'. subst f f'. cbn [act]. rewrite filters_effect_filters.
    unfold filters_effect, press_category, handleFilterChange.
    cbn. destruct (filters s). split; reflexivity.
Qed.

Lemma category_toggle_witness :
  let s := act mounted (PressCategory "Resort") in
  (FilterState.category (filters s) <> "Homestay"%string
   /\ FilterState.category (filters s) = "Resort"%string)
  /\ FilterState.category (filters (act s (PressCategory "Homestay")))
     = "Homestay"%string
  /\ FilterState.category (filters (act s (PressCategory "Resort"))) = ""%string.
Proof.
  intros s.
  assert (H : FilterState.category (filters s) <> "Homestay"%string
              /\ FilterState.category (filters s) = "Resort"%string)
    by (split; [discriminate | reflexivity]).
  split; [exact H |].
  destruct category_toggle as (Hset & Hclear & _).
  split.
  - rewrite (Hset s "Homestay"%string (proj1 H)). reflexivity.
  - rewrite (Hclear s "Resort"%string (proj2 H)). reflexivity.
Defined.

(** X9. A filter change, a clear and a refresh do not touch what is on
    display: the list, the total and [hasMore] are those of before until
    a response arrives, and no alert is raised; the cursor is back on
    page 1, under [refreshing] for a refresh and under [loading]
    otherwise. *)
Theorem list_kept_until_response (s : State) (e : Event) :
  first_page_trigger e = true ->
  let s' := step s e in
  properties s' = properties s
  /\ total s' = total s
  /\ hasMore s' = hasMore s
  /\ alerts s' = alerts s
  /\ page s' = 1
  /\ inflight s' = inflight s ++ [mkRequest 1 (filters s')
                                   (match e with Refresh => true | _ => false end)]
  /\ (if match e with Refresh => true | _ => false end
      then refreshing s' = true /\ loading s' = loading s
      else loading s' = true /\ refreshing s' = refreshing s).
Proof.
  intros H s'. subst s'.
  destruct e; try discriminate H; cbn [step]; repeat split.
Qed.

Lemma list_kept_until_response_witness :
  let a := sample "1" "A" in
  let s := run [Settle 0 (Ok (body [a] 1 1)); Settle 0 (Ok (body [a] 1 1))] mounted in
  first_page_trigger (FilterChange (SetSearch "zzz")) = true
  /\ properties (step s (FilterChange (SetSearch "zzz"))) = [a].
Proof.
  intros a s. split; [reflexivity |].
  rewrite (proj1 (list_kept_until_response s (FilterChange (SetSearch "zzz")) eq_refl)).
  vm_compute. reflexivity.
Defined.

(** ** Expanded sections *)

Lemma obj_get_set_same (k : string) (v : bool) (o : Sections) :
  obj_get k (obj_set k v o) = Some v.
Proof.
  induction o as [| [k0 v0] rest IH]; cbn [obj_set obj_get].
  - now rewrite String.eqb_refl.
  - destruct (String.eqb k0 k) eqn:E; cbn [obj_get]; now rewrite E.
Qed.

Lemma obj_get_set_other (k k' : string) (v : bool) (o : Sections) :
  k <> k' -> obj_get k' (obj_set k v o) = obj_get k' o.
Proof.
  intros N. induction o as [| [k0 v0] rest IH]; cbn [obj_set obj_get].
  - destruct (String.eqb_spec k k'); [contradiction | reflexivity].
  - destruct (String.eqb_spec k0 k) as [E | E]; cbn [obj_get].
    + subst k0. destruct (String.eqb_spec k k'); [contradiction | reflexivity].
    + now rewrite IH.
Qed.

(** X10. [toggleSection], called with one of the three section keys as
    the screen calls it, flips the expansion of that section and leaves
    every other key the screen uses, section or location node, as it
    reads; toggling a section twice gives back what each of these keys
    read before. *)
Theorem toggleSection_flips (section : string) (prev : Sections) :
  section_key section ->
  expanded section (toggleSection section prev) = negb (expanded section prev)
  /\ (forall key, screen_key key -> key <> section ->
        expanded key (toggleSection section prev) = expanded key prev)
  /\ (forall key, screen_key key ->
        expanded key (toggleSection section (toggleSection section prev))
        = expanded key prev).
Proof.
  intros _.
  assert (Hflip : forall o, expanded section (toggleSection section o)
                            = negb (expanded section o)).
  { intros o. unfold toggleSection, expanded at 1. now rewrite obj_get_set_same. }
  assert (Hother : forall o key, key <> section ->
                     expanded key (toggleSection section o) = expanded key o).
  { intros o key N. unfold toggleSection, expanded at 1 3.
    rewrite obj_get_set_other by congruence. reflexivity. }
  split; [apply Hflip |]. split; [intros key _; apply Hother |].
  intros key _. destruct (string_dec key section) as [-> | N].
  - rewrite !Hflip. apply negb_involutive.
  - now rewrite !Hother.
Qed.

Lemma toggleSection_flips_witness :
  (section_key "price" /\ screen_key "location_Dooars"
   /\ "location_Dooars"%string <> "price"%string)
  /\ expanded "price" (toggleSection "price" initialSections) = true
  /\ expanded "location_Dooars" (toggleSection "price" initialSections)
     = expanded "location_Dooars" initialSections.
Proof.
  assert (H : section_key "price" /\ screen_key "location_Dooars"
              /\ "location_Dooars"%string <> "price"%string).
  { split; [right; left; reflexivity |].
    split; [right; exists "Dooars"%string; reflexivity | discriminate]. }
  split; [exact H |].
  destruct (toggleSection_flips "price" initialSections (proj1 H)) as (F & O & _).
  split.
  - rewrite F. reflexivity.
  - exact (O "location_Dooars"%string (proj1 (proj2 H)) (proj2 (proj2 H))).
Defined.

Lemma node_key_not_section (loc : string) :
  ("location_" ++ loc)%string <> "location"%string
  /\ ("location_" ++ loc)%string <> "price"%string
  /\ ("location_" ++ loc)%string <> "classification"%string.
Proof. repeat split; cbn; discriminate. Qed.

(** X11. The main node of a location keeps its flag under a key of its
    own: pressing it flips that location's expansion, leaves the
    Location, Price and Classification sections and the nodes of the
    other locations as they were, and the three section toggles in turn
    never expand or collapse a location node.  At first every location
    node is collapsed and only the Location section is open. *)
Theorem location_nodes_independent (loc : string) (prev : Sections) :
  let key := ("location_" ++ loc)%string in
  expanded key (toggleLocationNode loc prev) = negb (expanded key prev)
  /\ (forall section, In section ["location"; "price"; "classification"]%string ->
        expanded section (toggleLocationNode loc prev) = expanded section prev
        /\ expanded key (toggleSection section prev) = expanded key prev)
  /\ (forall other, other <> loc ->
        expanded ("location_" ++ other)%string (toggleLocationNode loc prev)
        = expanded ("location_" ++ other)%string prev)
  /\ expanded key initialSections = false
  /\ (expanded "location" initialSections = true
      /\ expanded "price" initialSections = false
      /\ expanded "classification" initialSections = false).
Proof.
  intros key. subst key.
  destruct (node_key_not_section loc) as (N1 & N2 & N3).
  split; [| split; [| split; [| split]]].
  - unfold toggleLocationNode, expanded at 1. now rewrite obj_get_set_same.
  - intros section Hin.
    assert (N : ("location_" ++ loc)%string <> section).
    { cbn [In] in Hin. destruct Hin as [<- | [<- | [<- | []]]]; assumption. }
    split.
    + unfold toggleLocationNode, expanded at 1 3.
      now rewrite obj_get_set_other.
    + unfold toggleSection, expanded at 1 3.
      rewrite obj_get_set_other by congruence. reflexivity.
  - intros other N. unfold toggleLocationNode, expanded at 1 3.
    rewrite obj_get_set_other; [reflexivity |].
    cbn. intros C. apply N. injection C as C. now symmetry.
  - reflexivity.
  - repeat split.
Qed.

Lemma location_nodes_independent_witness :
  ("Hills"%string <> "Dooars"%string
   /\ In "price"%string ["location"; "price"; "classification"]%string)
  /\ expanded "location_Hills" (toggleLocationNode "Dooars" initialSections) = false
  /\ expanded "price" (toggleLocationNode "Dooars" initialSections) = false.
Proof.
  assert (H : "Hills"%string <> "Dooars"%string
              /\ In "price"%string ["location"; "price"; "classification"]%string)
    by (split; [discriminate | right; left; reflexivity]).
  split; [exact H |].
  destruct (location_nodes_independent "Dooars" initialSections)
    as (_ & Hsec & Hother & _).
  split.
  - change (expanded ("location_" ++ "Hills")%string
              (toggleLocationNode "Dooars" initialSections) = false).
    rewrite (Hother "Hills"%string (proj1 H)). reflexivity.
  - rewrite (proj1 (Hsec "price"%string (proj2 H))). reflexivity.
Defined.

(** ** Location tree *)

Lemma map_throwing_None {A B} (f : A -> option B) (l : list A) :
  map_throwing f l = None <-> exists x, In x l /\ f x = None.
Proof.
  induction l as [| x rest IH]; cbn [map_throwing In].
  - split; [discriminate | intros (x & [] & _)].
  - destruct (f x) as [y |] eqn:E.
    + destruct (map_throwing f rest) as [ys |].
      * split; [discriminate |]. intros (x0 & [<- | Hin] & H0); [congruence |].
        apply proj2 in IH. discriminate IH. now exists x0.
      * split; [| reflexivity]. intros _.
        destruct (proj1 IH eq_refl) as (x0 & Hin & H0). exists x0. auto.
    + split; [| reflexivity]. intros _. exists x. auto.
Qed.

Lemma map_throwing_Some {A B} (f : A -> option B) (l : list A) (ys : list B) :
  map_throwing f l = Some ys -> map Some ys = map f l.
Proof.
  revert ys. induction l as [| x rest IH]; intros ys; cbn [map_throwing map].
  - intros H. injection H as <-. reflexivity.
  - destruct (f x) as [y |]; [| discriminate].
    destruct (map_throwing f rest) as [ys' |]; [| discriminate].
    intros H. injection H as <-. cbn [map]. now rewrite (IH ys' eq_refl).
Qed.

(** X12. Drawing the location part of the filter panel throws exactly
    when the Location section is open and some expanded location holds
    a sub-location object without an entry; otherwise it draws one node
    per location, in the order of the list. *)
Theorem render_tree_throws
    (sections : Sections) (f : FilterState.t) (locations : list LocationStat.t) :
  (render_tree sections f locations = None
   <-> expanded "location" sections = true
       /\ exists loc, In loc locations
                      /\ expanded ("location_" ++ LocationStat.location loc)%string
                           sections = true
                      /\ In [] (LocationStat.sub_locations loc))
  /\ (forall nodes, render_tree sections f locations = Some nodes ->
        expanded "location" sections = true ->
        map node_location nodes = map LocationStat.location locations).
Proof.
  unfold render_tree.
  assert (Hnode : forall loc,
             render_node sections f loc = None
             <-> expanded ("location_" ++ LocationStat.location loc)%string
                   sections = true
                 /\ In [] (LocationStat.sub_locations loc)).
  { intros loc. unfold render_node.
    destruct (expanded ("location_" ++ LocationStat.location loc) sections).
    - destruct (map_throwing (render_leaf f (LocationStat.location loc))
                  (LocationStat.sub_locations loc)) as [leaves |] eqn:E.
      + split; [discriminate |]. intros [_ Hin]. exfalso.
        assert (C : map_throwing (render_leaf f (LocationStat.location loc))
                      (LocationStat.sub_locations loc) = None).
        { apply map_throwing_None. exists []. split; [exact Hin | reflexivity]. }
        congruence.
      + split; [| reflexivity]. intros _. split; [reflexivity |].
        apply map_throwing_None in E. destruct E as (o & Hin & Ho).
        destruct o as [| [name count] o']; [exact Hin | discriminate Ho].
    - split; [discriminate | intros [C _]; discriminate C]. }
  destruct (expanded "location" sections).
  - split.
    + rewrite map_throwing_None. split.
      * intros (loc & Hin & Hl). split; [reflexivity |]. exists loc.
        apply Hnode in Hl. tauto.
      * intros (_ & loc & Hin & He & Ho). exists loc. split; [exact Hin |].
        apply Hnode. tauto.
    + intros nodes H _. apply map_throwing_Some in H.
      revert nodes H. induction locations as [| loc rest IH]; intros nodes H.
      * destruct nodes; [reflexivity | discriminate H].
      * destruct nodes as [| n nodes]; [discriminate H |].
        cbn [map] in H. injection H as Hn Hrest. cbn [map].
        rewrite (IH nodes Hrest). f_equal.
        unfold render_node in Hn.
        destruct (expanded ("location_" ++ LocationStat.location loc) sections);
          [destruct (map_throwing (render_leaf f (LocationStat.location loc))
                       (LocationStat.sub_locations loc)) |];
          try discriminate Hn; injection Hn as ->; reflexivity.
  - split; [| intros nodes _ C; discriminate C].
    split; [discriminate | intros [C _]; discriminate C].
Qed.

Lemma render_tree_throws_witness :
  let dooars := LocationStat.mk "Dooars" 3 [[("Lataguri", 2)]; [("Chalsa", 1)]]%string in
  let sections := toggleLocationNode "Dooars" initialSections in
  (render_tree sections FilterState.default [dooars]
   = Some [mkNode "Dooars" 3 true
             [mkLeaf "Lataguri" 2 false; mkLeaf "Chalsa" 1 false] false]
   /\ expanded "location" sections = true)
  /\ map node_location
       [mkNode "Dooars" 3 true
          [mkLeaf "Lataguri" 2 false; mkLeaf "Chalsa" 1 false] false]
     = map LocationStat.location [dooars].
Proof.
  intros dooars sections.
  assert (H : render_tree sections FilterState.default [dooars]
              = Some [mkNode "Dooars" 3 true
                        [mkLeaf "Lataguri" 2 false; mkLeaf "Chalsa" 1 false] false]
              /\ expanded "location" sections = true)
    by (split; reflexivity).
  split; [exact H |].
  exact (proj2 (render_tree_throws sections FilterState.default [dooars])
           _ (proj1 H) (proj2 H)).
Defined.

Example render_tree_empty_object :
  render_tree (toggleLocationNode "Dooars" initialSections) FilterState.default
    [LocationStat.mk "Dooars" 3 [[("Lataguri", 2)]; []]%string] = None
  /\ render_tree initialSections FilterState.default
       [LocationStat.mk "Dooars" 3 [[("Lataguri", 2)]; []]%string]
     = Some [mkNode "Dooars" 3 false [] false].
Proof. split; reflexivity. Qed.

(** X13. After a press on a leaf that was not selected, the leaves drawn
    as selected are exactly those with the pressed leaf's location and
    name; after a press on the selected leaf they are those of that
    location whose name is empty, so that no named leaf is highlighted. *)
Theorem pressed_leaf_highlight
    (s : State) (loc name : string) (loc' name' : string) (count : Z)
    (others : list (string * Z)) :
  let f' := filters (act s (PressLeaf loc name)) in
  let selected_before :=
    String.eqb (FilterState.location (filters s)) loc
    && String.eqb (FilterState.sub_location (filters s)) name in
  exists leaf,
    render_leaf f' loc' ((name', count) :: others) = Some leaf
    /\ leaf_name leaf = name' /\ leaf_count leaf = count
    /\ (selected_before = false ->
        (leaf_selected leaf = true <-> loc' = loc /\ name' = name))
    /\ (selected_before = true ->
        (leaf_selected leaf = true <-> loc' = loc /\ name' = ""%string)).
Proof.
  intros f' selected_before. subst f' selected_before.
  cbn [act]. rewrite filters_effect_filters.
  unfold press_subLocation, handleFilterChange. cbn [filters setFilters].
  eexists. split; [reflexivity |]. cbn [leaf_name leaf_count leaf_selected].
  split; [reflexivity |]. split; [reflexivity |].
  destruct (filters s) as [se lo su ca mi so]. cbn.
  split; intros ->; rewrite andb_true_iff, !String.eqb_eq;
    split; intros [-> ->]; split; reflexivity.
Qed.

Lemma pressed_leaf_highlight_witness :
  let f' := filters (act mounted (PressLeaf "Dooars" "Lataguri")) in
  (String.eqb (FilterState.location (filters mounted)) "Dooars"
   && String.eqb (FilterState.sub_location (filters mounted)) "Lataguri" = false)
  /\ render_leaf f' "Dooars" [("Lataguri"%string, 2)]
     = Some (mkLeaf "Lataguri" 2 true)
  /\ render_leaf f' "Dooars" [("Chalsa"%string, 1)]
     = Some (mkLeaf "Chalsa" 1 false).
Proof.
  intros f'. split; [reflexivity |].
  destruct (pressed_leaf_highlight mounted "Dooars" "Lataguri" "Dooars" "Lataguri" 2 [])
    as (leaf & Hr & _ & _ & Hsel & _).
  split; [| reflexivity].
  fold f' in Hr. rewrite Hr. vm_compute in Hr. injection Hr as <-. reflexivity.
Defined.

(** ** Property card *)

Lemma renderStars_head (rating : Q) :
  (0 < rating)%Q ->
  exists g rest, renderStars rating = g :: rest /\ g <> StarOutline.
Proof.
  intros H. unfold renderStars, JS.push_times.
  assert (Hf : 0 <= Qfloor rating) by (apply Qfloor_nonneg_iff; lra).
  destruct (Z.to_nat (Qfloor rating)) as [| n] eqn:En.
  - assert (F0 : Qfloor rating = 0) by lia.
    destruct (JS.num_nonzero (JS.rem1 rating)) eqn:E.
    + exists StarHalf. eexists. split; [reflexivity | discriminate].
    + exfalso. apply rem1_zero_iff in E.
      pose proof (Qle_ceiling rating) as Hc. rewrite E, F0 in Hc.
      change (inject_Z 0) with 0%Q in Hc. lra.
  - exists Star. eexists. split; [reflexivity | discriminate].
Qed.

(** X14. A card shows its rating row exactly for a rating above zero;
    the row then has at least five glyphs and does not begin with an
    empty one, and it shows the review count exactly when that is above
    zero.  The price line is never empty: a card without tariff reads
    "Price on request". *)
Theorem card_rating_and_price (toFixed1 : Q -> string) (item : Property.t) :
  (ratingRow toFixed1 item = None <-> (Property.google_rating item <= 0)%Q)
  /\ (forall row, ratingRow toFixed1 item = Some row ->
        row_stars row = renderStars (Property.google_rating item)
        /\ (5 <= List.length (row_stars row))%nat
        /\ (exists g rest, row_stars row = g :: rest /\ g <> StarOutline)
        /\ (row_reviews row = None <-> Property.number_of_reviews item <= 0)
        /\ (forall n, row_reviews row = Some n ->
                      n = Property.number_of_reviews item))
  /\ priceText item <> ""%string
  /\ (Property.tariff item = ""%string -> priceText item = "Price on request"%string).
Proof.
  unfold ratingRow.
  destruct (Qle_bool (Property.google_rating item) 0) eqn:E; cbn [negb].
  - apply Qle_bool_iff in E. split; [tauto |]. split; [discriminate |].
    unfold priceText. destruct (Property.tariff item); cbn;
      split; discriminate || reflexivity.
  - assert (Hpos : (0 < Property.google_rating item)%Q).
    { apply Qnot_le_lt. intros C. apply Qle_bool_iff in C. congruence. }
    split; [split; [discriminate | intros C; lra] |].
    split.
    + intros row H. injection H as <-. cbn [row_stars row_reviews].
      split; [reflexivity |].
      split; [apply renderStars_length_cases |].
      split; [now apply renderStars_head |].
      destruct (Z.ltb_spec 0 (Property.number_of_reviews item)); split.
      * split; [discriminate | lia].
      * intros n Hn. now injection Hn as <-.
      * split; [lia | reflexivity].
      * discriminate.
    + unfold priceText. destruct (Property.tariff item); cbn;
        split; discriminate || reflexivity.
Qed.

Lemma card_rating_and_price_witness :
  let item := sample "1" "A" in
  (ratingRow (fun _ => "3.5"%string) item
   = Some (mkRatingRow [Star; Star; Star; StarHalf; StarOutline] "3.5" (Some 12))
   /\ Property.tariff item = ""%string)
  /\ priceText item = "Price on request"%string
  /\ (5 <= List.length [Star; Star; Star; StarHalf; StarOutline])%nat.
Proof.
  intros item.
  assert (H : ratingRow (fun _ => "3.5"%string) item
              = Some (mkRatingRow [Star; Star; Star; StarHalf; StarOutline]
                        "3.5" (Some 12))
              /\ Property.tariff item = ""%string)
    by (split; reflexivity).
  split; [exact H |].
  destruct (card_rating_and_price (fun _ => "3.5"%string) item)
    as (_ & Hrow & _ & Hprice).
  split; [exact (Hprice (proj2 H)) |].
  exact (proj1 (proj2 (Hrow _ (proj1 H)))).
Defined.

(** ** Outbound links, again *)

Lemma replace_outside_app (cls : ascii -> bool) (a b : string) :
  JS.replace_outside cls (a ++ b)
  = (JS.replace_outside cls a ++ JS.replace_outside cls b)%string.
Proof.
  induction a as [| c a IH]; cbn; [reflexivity |].
  destruct (cls c); cbn; now rewrite IH.
Qed.

Lemma replace_outside_twice (cls cls' : ascii -> bool) (s : string) :
  (forall c, cls' c = true -> cls c = true) ->
  JS.replace_outside cls' (JS.replace_outside cls s) = JS.replace_outside cls' s.
Proof.
  intros Hsub. induction s as [| c s IH]; cbn; [reflexivity |].
  destruct (cls c) eqn:E; cbn.
  - destruct (cls' c); now rewrite IH.
  - destruct (cls' c) eqn:E'; [| exact IH].
    apply Hsub in E'. congruence.
Qed.

(** X15. Both link builders give the same URL for a number and for a
    link already built from it: the dial action on a [tel:] URL returns
    that URL, and the messaging action gives the same URL for the
    number, for its [tel:] URL and for its own URL, because the scheme
    and path of either URL hold no digit and no plus sign. *)
Theorem links_idempotent (phoneNumber : string) :
  handleCall (handleCall phoneNumber) = handleCall phoneNumber
  /\ handleWhatsApp (handleCall phoneNumber) = handleWhatsApp phoneNumber
  /\ handleWhatsApp (handleWhatsApp phoneNumber) = handleWhatsApp phoneNumber.
Proof.
  unfold handleCall, handleWhatsApp.
  rewrite !replace_outside_app.
  rewrite !replace_outside_twice; try reflexivity; auto.
  intros c H. unfold JS.in_0_9_plus. now rewrite H.
Qed.

(** ** Query string, again *)

(** X16. The query string names no parameter twice; it always holds
    [page], the page number asked for, and [per_page], 20, and has
    between three and eight parameters. *)
Theorem query_keys_distinct
    (Number_toString : Q -> string) (pageNum : Z) (f : FilterState.t) :
  let ps := URLSearchParams Number_toString pageNum f in
  NoDup (map fst ps)
  /\ params_get "page" ps = Some (page_toString pageNum)
  /\ params_get "per_page" ps = Some "20"%string
  /\ params_get "sort_by" ps = Some (FilterState.sort_by f)
  /\ (3 <= List.length ps <= 8)%nat.
Proof.
  destruct f as [se lo su ca mi so]. intros ps. subst ps.
  unfold URLSearchParams.
  cbn [FilterState.search FilterState.location FilterState.sub_location
       FilterState.category FilterState.min_rating FilterState.sort_by].
  split; [| split; [reflexivity | split; [reflexivity | split; [reflexivity |]]]].
  - split_string_filters;
      (destruct mi as [q |]; [destruct (JS.num_nonzero q) |]); cbn;
      repeat (constructor; [cbn; intuition discriminate |]); constructor.
  - split_string_filters;
      (destruct mi as [q |]; [destruct (JS.num_nonzero q) |]); cbn; lia.
Qed.

(** * Search screen *)

Lemma search_step_loading_on_first_page (s : SearchScreen.State) (e : SearchScreen.Event) :
  SearchScreen.loading_on_first_page s ->
  SearchScreen.loading_on_first_page (SearchScreen.step s e).
Proof.
  intros [Hp Hl]. unfold SearchScreen.loading_on_first_page.
  destruct e as [text | | | i o]; cbn [SearchScreen.step].
  - unfold SearchScreen.handleSearch.
    destruct (String.eqb text (SearchScreen.searchQuery s)); cbn;
      split; lia || reflexivity.
  - unfold SearchScreen.handleLoadMore.
    destruct (SearchScreen.loading s) eqn:L; cbn [negb andb]; [split; auto |].
    destruct (SearchScreen.hasMore s); cbn [negb andb];
      [| split; [exact Hp | congruence]].
    unfold SearchScreen.fetchProperties. cbn.
    destruct (Z.eqb_spec (SearchScreen.page s + 1) 1) as [E | N]; cbn; split;
      lia || congruence.
  - cbn. split; [lia | reflexivity].
  - unfold SearchScreen.settle.
    destruct (nth_error (SearchScreen.inflight s) i) as [r |]; [| now split].
    destruct o as [d |]; cbn; split; assumption || discriminate.
Qed.

(** X18. On the search screen the footer row "Loading more
    properties..." is never drawn: [loading] is raised by first-page
    requests only and the cursor is then on page 1, so the footer's
    condition fails in every state the screen can reach. *)
Theorem footer_never_shown (es : list SearchScreen.Event) :
  SearchScreen.renderFooter (SearchScreen.run es SearchScreen.mounted) = false.
Proof.
  assert (H : SearchScreen.loading_on_first_page
                (SearchScreen.run es SearchScreen.mounted)).
  { assert (G : forall s, SearchScreen.loading_on_first_page s ->
                          SearchScreen.loading_on_first_page (SearchScreen.run es s)).
    { induction es as [| e es IH]; intros s Hs; [exact Hs |].
      apply (IH (SearchScreen.step s e)).
      now apply search_step_loading_on_first_page. }
    apply G. split; [cbn; lia | reflexivity]. }
  destruct H as [_ Hl]. unfold SearchScreen.renderFooter.
  destruct (SearchScreen.loading (SearchScreen.run es SearchScreen.mounted));
    [| reflexivity].
  rewrite (Hl eq_refl). reflexivity.
Qed.

(** X19. On the search screen a new search text puts the cursor on page
    1 and sends one request, for page 1, ten per page, sorted by rating,
    with a [search] parameter unless the text is empty; the text already
    in force puts the cursor on page 1 and sends nothing.  In both cases
    the list on display is kept. *)
Theorem handleSearch_requests (s : SearchScreen.State) (text : string) :
  let s' := SearchScreen.handleSearch text s in
  SearchScreen.page s' = 1
  /\ SearchScreen.searchQuery s' = text
  /\ SearchScreen.properties s' = SearchScreen.properties s
  /\ (text = SearchScreen.searchQuery s ->
      SearchScreen.sent s' = SearchScreen.sent s
      /\ SearchScreen.loading s' = SearchScreen.loading s)
  /\ (text <> SearchScreen.searchQuery s ->
      SearchScreen.sent s'
      = SearchScreen.sent s ++ [SearchScreen.mkRequest 1 text false]
      /\ SearchScreen.loading s' = true
      /\ SearchScreen.URLSearchParams 1 text
         = [("page", "1"); ("per_page", "10"); ("sort_by", "rating_desc")]%string
           ++ (if String.eqb text "" then [] else [("search"%string, text)])).
Proof.
  intros s'. subst s'. unfold SearchScreen.handleSearch.
  destruct (String.eqb_spec text (SearchScreen.searchQuery s)) as [E | N].
  - split; [reflexivity |]. split; [reflexivity |]. split; [reflexivity |].
    split; [intros _; split; reflexivity | intros C; now destruct (C E)].
  - split; [reflexivity |]. split; [reflexivity |]. split; [reflexivity |].
    split; [intros C; now destruct (N C) |]. intros _.
    split; [reflexivity |]. split; [reflexivity |].
    destruct text; reflexivity.
Qed.

Lemma handleSearch_requests_witness :
  ("tea"%string <> SearchScreen.searchQuery SearchScreen.mounted
   /\ ""%string = SearchScreen.searchQuery SearchScreen.mounted)
  /\ map SearchScreen.query
       (SearchScreen.sent (SearchScreen.handleSearch "tea" SearchScreen.mounted))
     = [""; "tea"]%string
  /\ SearchScreen.sent (SearchScreen.handleSearch "" SearchScreen.mounted)
     = SearchScreen.sent SearchScreen.mounted.
Proof.
  assert (H : "tea"%string <> SearchScreen.searchQuery SearchScreen.mounted
              /\ ""%string = SearchScreen.searchQuery SearchScreen.mounted)
    by (split; [discriminate | reflexivity]).
  split; [exact H |].
  destruct (handleSearch_requests SearchScreen.mounted "tea")
    as (_ & _ & _ & _ & Hnew).
  destruct (handleSearch_requests SearchScreen.mounted "")
    as (_ & _ & _ & Hsame & _).
  split.
  - rewrite (proj1 (Hnew (proj1 H))). reflexivity.
  - exact (proj1 (Hsame (proj2 H))).
Defined.

(** * Location detail screen *)

Lemma insert_desc_perm (x : LocationDetail.SubLocation) (l : list LocationDetail.SubLocation) :
  Permutation (x :: l) (LocationDetail.insert_desc x l).
Proof.
  induction l as [| y rest IH]; cbn [LocationDetail.insert_desc]; [reflexivity |].
  destruct (LocationDetail.count y <=? LocationDetail.count x); [reflexivity |].
  rewrite perm_swap. now apply perm_skip.
Qed.

Lemma insert_desc_sorted (x : LocationDetail.SubLocation) (l : list LocationDetail.SubLocation) :
  StronglySorted LocationDetail.ge_count l ->
  StronglySorted LocationDetail.ge_count (LocationDetail.insert_desc x l).
Proof.
  induction 1 as [| y rest Hs IH Hall]; cbn [LocationDetail.insert_desc].
  - constructor; constructor.
  - destruct (Z.leb_spec (LocationDetail.count y) (LocationDetail.count x)) as [L | G].
    + constructor; [now constructor |].
      constructor; [exact L |].
      eapply Forall_impl; [| exact Hall].
      unfold LocationDetail.ge_count. intros z Hz. lia.
    + constructor; [exact IH |].
      rewrite <- insert_desc_perm. constructor; [| exact Hall].
      unfold LocationDetail.ge_count. lia.
Qed.

Lemma insert_desc_with_count (c : Z) (x : LocationDetail.SubLocation)
                             (l : list LocationDetail.SubLocation) :
  LocationDetail.with_count c (LocationDetail.insert_desc x l)
  = LocationDetail.with_count c (x :: l).
Proof.
  unfold LocationDetail.with_count.
  induction l as [| y rest IH]; cbn [LocationDetail.insert_desc]; [reflexivity |].
  destruct (Z.leb_spec (LocationDetail.count y) (LocationDetail.count x)) as [L | G];
    [reflexivity |].
  cbn [filter] in *. rewrite IH.
  destruct (Z.eqb_spec (LocationDetail.count x) c) as [Ex | Nx];
    destruct (Z.eqb_spec (LocationDetail.count y) c) as [Ey | Ny];
    try reflexivity.
  lia.
Qed.

Lemma sort_desc_spec (l : list LocationDetail.SubLocation) :
  Permutation l (LocationDetail.sort_desc l)
  /\ StronglySorted LocationDetail.ge_count (LocationDetail.sort_desc l)
  /\ forall c, LocationDetail.with_count c (LocationDetail.sort_desc l)
               = LocationDetail.with_count c l.
Proof.
  induction l as [| x rest (P & S & F)]; cbn [LocationDetail.sort_desc fold_right].
  - split; [reflexivity |]. split; [constructor | reflexivity].
  - fold (LocationDetail.sort_desc rest). split; [| split].
    + rewrite <- insert_desc_perm. now apply perm_skip.
    + now apply insert_desc_sorted.
    + intros c. rewrite insert_desc_with_count.
      unfold LocationDetail.with_count in *. cbn [filter]. now rewrite F.
Qed.

Lemma find_first {A} (p : A -> bool) (l : list A) (x : A) :
  find p l = Some x ->
  exists before after,
    l = before ++ x :: after /\ Forall (fun y => p y = false) before.
Proof.
  induction l as [| y rest IH]; cbn [find]; [discriminate |].
  destruct (p y) eqn:E.
  - intros H. injection H as ->. exists [], rest. split; [reflexivity | constructor].
  - intros H. destruct (IH H) as (before & after & -> & Hb).
    exists (y :: before), after. split; [reflexivity | now constructor].
Qed.

(** X20. The areas of the detail screen are the entries of all the
    sub-location objects of the first location whose name matches the
    route parameter without regard to case: every entry once, all
    collapsed, by count from the largest down, entries of equal count in
    the order they came in.  With no matching location the areas are
    not set. *)
Theorem subLocations_sorted_stable
    (toLowerCase : string -> string) (locationName : option string)
    (locations : list LocationStat.t) :
  (forall subs,
      LocationDetail.fetchLocationData_subLocations toLowerCase locationName locations
      = Some subs ->
      exists (currentLocation : LocationStat.t) (n : string)
             (before after : list LocationStat.t),
        locationName = Some n
        /\ locations = before ++ currentLocation :: after
        /\ Forall (fun loc => toLowerCase (LocationStat.location loc)
                              <> toLowerCase n) before
        /\ toLowerCase (LocationStat.location currentLocation) = toLowerCase n
        /\ Permutation
             (LocationDetail.collect (LocationStat.sub_locations currentLocation))
             subs
        /\ StronglySorted LocationDetail.ge_count subs
        /\ (forall c,
              LocationDetail.with_count c subs
              = LocationDetail.with_count c
                  (LocationDetail.collect (LocationStat.sub_locations currentLocation)))
        /\ Forall (fun s => LocationDetail.expanded s = false) subs)
  /\ (LocationDetail.fetchLocationData_subLocations toLowerCase locationName locations
      = None
      <-> forall loc, In loc locations ->
                      LocationDetail.is_current toLowerCase locationName loc = false).
Proof.
  unfold LocationDetail.fetchLocationData_subLocations.
  destruct (find (LocationDetail.is_current toLowerCase locationName) locations)
    as [cur |] eqn:E.
  - split.
    + intros subs H. injection H as <-.
      destruct (find_first _ _ _ E) as (before & after & Hl & Hb).
      apply find_some in E. destruct E as [Hin Hcur].
      unfold LocationDetail.is_current in Hcur, Hb.
      destruct locationName as [n |]; [| discriminate Hcur].
      apply String.eqb_eq in Hcur.
      destruct (sort_desc_spec
                  (LocationDetail.collect (LocationStat.sub_locations cur)))
        as (P & S & F).
      exists cur, n, before, after.
      split; [reflexivity |]. split; [exact Hl |].
      split; [eapply Forall_impl; [| exact Hb]; intros loc Hloc;
              now apply String.eqb_neq |].
      repeat (split; [assumption || reflexivity |]).
      eapply Permutation_Forall; [exact P |].
      unfold LocationDetail.collect. apply Forall_forall. intros s Hs.
      apply in_flat_map in Hs. destruct Hs as (o & _ & Hs).
      apply in_map_iff in Hs. destruct Hs as (entry & <- & _). reflexivity.
    + split; [discriminate |]. intros H. apply find_some in E.
      destruct E as [Hin Hcur]. rewrite (H cur Hin) in Hcur. discriminate Hcur.
  - split; [discriminate |]. split; [| reflexivity].
    intros _ loc Hin. exact (find_none _ _ E loc Hin).
Qed.

Lemma subLocations_sorted_stable_witness :
  let id := fun s : string => s in
  let locs := [LocationStat.mk "Hills" 1 [[("Mirik", 1)]];
               LocationStat.mk "Dooars" 9
                 [[("Lataguri", 2)]; [("Chalsa", 5); ("Murti", 2)]]]%string in
  let subs := [LocationDetail.mkSubLocation "Chalsa" 5 false;
               LocationDetail.mkSubLocation "Lataguri" 2 false;
               LocationDetail.mkSubLocation "Murti" 2 false] in
  LocationDetail.fetchLocationData_subLocations id (Some "Dooars"%string) locs
  = Some subs
  /\ StronglySorted LocationDetail.ge_count subs.
Proof.
  intros id locs subs.
  assert (H : LocationDetail.fetchLocationData_subLocations id
                (Some "Dooars"%string) locs = Some subs) by reflexivity.
  split; [exact H |].
  destruct (proj1 (subLocations_sorted_stable id (Some "Dooars"%string) locs) subs H)
    as (cur & n & before & after & _ & _ & _ & _ & _ & S & _).
  exact S.
Defined.

Lemma toggle_from_spec (prev : list LocationDetail.SubLocation) :
  forall from index : Z,
    List.length (LocationDetail.toggle_from from index prev) = List.length prev
    /\ (forall i item,
          nth_error prev i = Some item ->
          nth_error (LocationDetail.toggle_from from index prev) i
          = Some (if from + Z.of_nat i =? index
                  then LocationDetail.mkSubLocation
                         (LocationDetail.name item) (LocationDetail.count item)
                         (negb (LocationDetail.expanded item))
                  else item))
    /\ LocationDetail.toggle_from from index
         (LocationDetail.toggle_from from index prev) = prev
    /\ (index < from \/ from + Z.of_nat (List.length prev) <= index ->
        LocationDetail.toggle_from from index prev = prev).
Proof.
  induction prev as [| x rest IH]; intros from index;
    cbn [LocationDetail.toggle_from List.length].
  - split; [reflexivity |]. split; [intros [| i] item H; discriminate H |].
    split; reflexivity.
  - destruct (IH (from + 1) index) as (L & N & I & O).
    split; [now rewrite L |]. split; [| split].
    + intros [| i] item H; cbn [nth_error] in *.
      * injection H as <-. now rewrite Z.add_0_r.
      * rewrite (N i item H).
        replace (from + 1 + Z.of_nat i) with (from + Z.of_nat (S i)) by lia.
        reflexivity.
    + rewrite I. f_equal.
      destruct (from =? index); [| reflexivity].
      destruct x as [n c e]. cbn. now rewrite negb_involutive.
    + intros H. rewrite O by lia. f_equal.
      destruct (Z.eqb_spec from index); [lia | reflexivity].
Qed.

(** X21. [toggleSubLocation] flips the [expanded] flag of the area at
    the given index and touches nothing else: the list keeps its length
    and every area its name and count; an index outside the list leaves
    the list unchanged, and toggling the same index twice gives the list
    back. *)
Theorem toggleSubLocation_one (index : Z) (prev : list LocationDetail.SubLocation) :
  List.length (LocationDetail.toggleSubLocation index prev) = List.length prev
  /\ (forall i item,
        nth_error prev i = Some item ->
        nth_error (LocationDetail.toggleSubLocation index prev) i
        = Some (if Z.of_nat i =? index
                then LocationDetail.mkSubLocation
                       (LocationDetail.name item) (LocationDetail.count item)
                       (negb (LocationDetail.expanded item))
                else item))
  /\ LocationDetail.toggleSubLocation index
       (LocationDetail.toggleSubLocation index prev) = prev
  /\ (index < 0 \/ Z.of_nat (List.length prev) <= index ->
      LocationDetail.toggleSubLocation index prev = prev).
Proof.
  unfold LocationDetail.toggleSubLocation.
  destruct (toggle_from_spec prev 0 index) as (L & N & I & O).
  split; [exact L |]. split; [exact N |]. split; [exact I |].
  intros H. apply O. lia.
Qed.

Lemma toggleSubLocation_one_witness :
  let prev := [LocationDetail.mkSubLocation "Chalsa" 5 false;
               LocationDetail.mkSubLocation "Murti" 2 false] in
  (nth_error prev 1 = Some (LocationDetail.mkSubLocation "Murti" 2 false)
   /\ (2 < 0 \/ Z.of_nat (List.length prev) <= 2))
  /\ nth_error (LocationDetail.toggleSubLocation 1 prev) 1
     = Some (LocationDetail.mkSubLocation "Murti" 2 true)
  /\ LocationDetail.toggleSubLocation 2 prev = prev.
Proof.
  intros prev.
  assert (H : nth_error prev 1 = Some (LocationDetail.mkSubLocation "Murti" 2 false)
              /\ (2 < 0 \/ Z.of_nat (List.length prev) <= 2))
    by (split; [reflexivity | right; cbn; lia]).
  split; [exact H |]. split.
  - exact (proj1 (proj2 (toggleSubLocation_one 1 prev)) 1%nat _ (proj1 H)).
  - exact (proj2 (proj2 (proj2 (toggleSubLocation_one 2 prev))) (proj2 H)).
Defined.

(** X22. The detail screen's query string always carries [location],
    empty when the route gives none, and ten per page sorted by reviews;
    [sub_location] is in it exactly for a non-empty selection.  Pressing
    the selected area clears the selection, so its request has no
    [sub_location]; pressing another, named area selects it at once. *)
Theorem detail_query (locationName : option string) (pageNum : Z) :
  (forall subLocation,
      let ps := LocationDetail.URLSearchParams locationName pageNum subLocation in
      params_get "location" ps
      = Some (match locationName with Some n => n | None => ""%string end)
      /\ params_get "per_page" ps = Some "10"%string
      /\ params_get "sort_by" ps = Some "reviews_desc"%string
      /\ (forall v, params_get "sub_location" ps = Some v
                    <-> subLocation = v /\ v <> ""%string)
      /\ NoDup (map fst ps))
  /\ (forall selected,
        params_get "sub_location"
          (LocationDetail.URLSearchParams locationName pageNum
             (LocationDetail.selectSubLocation selected selected)) = None)
  /\ (forall area selected,
        area <> selected -> area <> ""%string ->
        params_get "sub_location"
          (LocationDetail.URLSearchParams locationName pageNum
             (LocationDetail.selectSubLocation area selected)) = Some area).
Proof.
  split; [| split].
  - intros subLocation ps. subst ps. unfold LocationDetail.URLSearchParams.
    split; [destruct locationName as [[| c n] |]; reflexivity |].
    split; [reflexivity |]. split; [reflexivity |]. split.
    + intros v. destruct subLocation as [| c rest]; cbn; split.
      * discriminate.
      * intros [<- N]. now destruct N.
      * intros H. injection H as <-. split; [reflexivity | discriminate].
      * intros [<- _]. reflexivity.
    + destruct subLocation; cbn;
        repeat (constructor; [cbn; intuition discriminate |]); constructor.
  - intros selected. unfold LocationDetail.selectSubLocation.
    now rewrite String.eqb_refl.
  - intros area selected N E. unfold LocationDetail.selectSubLocation.
    destruct (String.eqb_spec area selected); [contradiction |].
    destruct area; [contradiction | reflexivity].
Qed.

Lemma detail_query_witness :
  ("Chalsa"%string <> "Murti"%string /\ "Chalsa"%string <> ""%string)
  /\ params_get "sub_location"
       (LocationDetail.URLSearchParams (Some "Dooars"%string) 1
          (LocationDetail.selectSubLocation "Chalsa" "Murti"))
     = Some "Chalsa"%string.
Proof.
  assert (H : "Chalsa"%string <> "Murti"%string /\ "Chalsa"%string <> ""%string)
    by (split; discriminate).
  split; [exact H |].
  exact (proj2 (proj2 (detail_query (Some "Dooars"%string) 1))
           "Chalsa"%string "Murti"%string (proj1 H) (proj2 H)).
Defined.
